(** * recordtocsv: a shallow embedding of [recordtocsv.go]

    The Go package appends one CSV row per call to a file whose name
    carries a daily, monthly or yearly suffix.  This development embeds
    [RecordToCSVService.Record] and [RecordToCSVService.Append] together
    with the slices of the Go standard library they run through
    ([time.Format], [path/filepath.Join], [encoding/json] decoding into a
    map, [fmt]'s [%v], [encoding/csv.Writer], [bufio.Writer] and the file
    calls of [os]), and proves properties of the result. *)

From Stdlib Require Import ZArith Ascii String Lia Bool.
From stdpp Require Import gmap strings list.

Local Open Scope Z_scope.

(** ** Byte strings

    A Go [string] is a sequence of bytes; it is embedded as [string]
    (a list of 8-bit [ascii]). *)

Module Bytes.

Definition dquote : ascii := "034"%char.
Definition lf : ascii := "010"%char.
Definition cr : ascii := "013"%char.
Definition comma : ascii := ","%char.

Definition str1 (c : ascii) : string := String c EmptyString.

(** [s[:n]] *)
Fixpoint take (n : nat) (s : string) : string :=
  match n, s with
  | S n', String c s' => String c (take n' s')
  | _, _ => EmptyString
  end.

(** [s[n:]] *)
Fixpoint drop (n : nat) (s : string) : string :=
  match n, s with
  | S n', String c s' => drop n' s'
  | _, _ => s
  end.

(** [strings.Repeat(string(c), n)] *)
Fixpoint repeatByte (n : nat) (c : ascii) : string :=
  match n with
  | O => EmptyString
  | S n' => String c (repeatByte n' c)
  end.

Definition len (s : string) : Z := Z.of_nat (String.length s).

Definition byteval (c : ascii) : Z := Z.of_nat (nat_of_ascii c).

(** One decimal digit as a byte. *)
Definition digit (d : Z) : ascii := ascii_of_nat (48 + Z.to_nat d).

(** The decimal form of [u > 0], most significant digit first, and the
    empty string for [0]; [fuel] bounds the number of digits (a Go [uint]
    has at most 20). *)
Fixpoint decimal (fuel : nat) (u : Z) (acc : string) : string :=
  match fuel with
  | O => acc
  | S fuel' =>
      if u <=? 0 then acc
      else decimal fuel' (u / 10) (String (digit (u mod 10)) acc)
  end.

End Bytes.

Import Bytes.

(** ** [time]: the civil reading of an instant and [Time.Format] *)

Module GoTime.

(** The fields [Time.Format] reads off an instant already placed in a
    location ([time.Now().In(loc)]). *)
Record Time := mkTime {
  year : Z; month : Z; day : Z;
  hour : Z; minute : Z; second : Z;
  yday : Z
}.

(** [appendInt(b, x, width)] of time/format.go, as the bytes appended:
    a minus sign for negative [x], zero padding up to [width], then the
    decimal form. *)
Definition appendInt (x : Z) (width : Z) : string :=
  let u := Z.abs x in
  let ds := if u =? 0 then str1 "0"%char else decimal 20 u EmptyString in
  (if x <? 0 then str1 "-"%char else EmptyString)
  +:+ repeatByte (Z.to_nat (width - len ds)) "0"%char +:+ ds.

Definition hour12 (h : Z) : Z :=
  let hr := h mod 12 in if hr =? 0 then 12 else hr.

(** [Time.Format(layout)], with [nextStdChunk] folded into the loop: the
    layout is read left to right, a recognised chunk is replaced by the
    field it names, any other byte is copied.  The chunks are those
    [nextStdChunk] recognises at the bytes [0]..[5] and [_]; the cases it
    has for letters, [-], [.], and [,] (month and weekday names, AM/PM,
    zones, fractional seconds) are left out, since none of these bytes
    occurs in a layout [Record] uses. *)
Fixpoint Format (t : Time) (layout : string) : string :=
  match layout with
  | EmptyString => EmptyString
  | String c0 r0 =>
    let literal := String c0 (Format t r0) in
    if Ascii.eqb c0 "0" then
      match r0 with
      | String c1 r1 =>
        if Ascii.eqb c1 "1" then appendInt (month t) 2 +:+ Format t r1
        else if Ascii.eqb c1 "2" then appendInt (day t) 2 +:+ Format t r1
        else if Ascii.eqb c1 "3" then appendInt (hour12 (hour t)) 2 +:+ Format t r1
        else if Ascii.eqb c1 "4" then appendInt (minute t) 2 +:+ Format t r1
        else if Ascii.eqb c1 "5" then appendInt (second t) 2 +:+ Format t r1
        else if Ascii.eqb c1 "6" then appendInt (Z.abs (year t) mod 100) 2 +:+ Format t r1
        else if Ascii.eqb c1 "0" then
          match r1 with
          | String c2 r2 =>
            if Ascii.eqb c2 "2" then appendInt (yday t) 3 +:+ Format t r2
            else literal
          | EmptyString => literal
          end
        else literal
      | EmptyString => literal
      end
    else if Ascii.eqb c0 "1" then
      match r0 with
      | String c1 r1 =>
        if Ascii.eqb c1 "5" then appendInt (hour t) 2 +:+ Format t r1
        else appendInt (month t) 0 +:+ Format t r0
      | EmptyString => appendInt (month t) 0 +:+ Format t r0
      end
    else if Ascii.eqb c0 "2" then
      match r0 with
      | String c1 (String c2 (String c3 r3)) =>
        if Ascii.eqb c1 "0" && Ascii.eqb c2 "0" && Ascii.eqb c3 "6"
        then appendInt (year t) 4 +:+ Format t r3
        else appendInt (day t) 0 +:+ Format t r0
      | _ => appendInt (day t) 0 +:+ Format t r0
      end
    else if Ascii.eqb c0 "_" then
      match r0 with
      | String c1 r1 =>
        if Ascii.eqb c1 "2" then
          match r1 with
          | String c2 (String c3 (String c4 r4)) =>
            if Ascii.eqb c2 "0" && Ascii.eqb c3 "0" && Ascii.eqb c4 "6"
            then String "_" (appendInt (year t) 4 +:+ Format t r4)
            else (if day t <? 10 then str1 " "%char else EmptyString)
                 +:+ appendInt (day t) 0 +:+ Format t r1
          | _ => (if day t <? 10 then str1 " "%char else EmptyString)
                 +:+ appendInt (day t) 0 +:+ Format t r1
          end
        else if Ascii.eqb c1 "_" then
          match r1 with
          | String c2 r2 =>
            if Ascii.eqb c2 "2" then
              (if yday t <? 100 then
                 (if yday t <? 10 then "  " else " ")
               else EmptyString)
              +:+ appendInt (yday t) 0 +:+ Format t r2
            else literal
          | EmptyString => literal
          end
        else literal
      | EmptyString => literal
      end
    else if Ascii.eqb c0 "3" then appendInt (hour12 (hour t)) 0 +:+ Format t r0
    else if Ascii.eqb c0 "4" then appendInt (minute t) 0 +:+ Format t r0
    else if Ascii.eqb c0 "5" then appendInt (second t) 0 +:+ Format t r0
    else literal
  end.

End GoTime.

(** ** [path/filepath]: [Join] and [Clean] with the Unix separator *)

Module Filepath.

Definition Separator : ascii := "/"%char.

(** [strings.Split(s, "/")], with the element being read in [cur]. *)
Fixpoint splitFrom (cur : string) (s : string) : list string :=
  match s with
  | EmptyString => [cur]
  | String c s' =>
      if Ascii.eqb c Separator then cur :: splitFrom EmptyString s'
      else splitFrom (cur +:+ str1 c) s'
  end.

Definition split (s : string) : list string := splitFrom EmptyString s.

(** [strings.Join(elems, sep)] *)
Fixpoint join (sep : string) (elems : list string) : string :=
  match elems with
  | [] => EmptyString
  | [e] => e
  | e :: rest => e +:+ sep +:+ join sep rest
  end.

(** The element loop of [Clean], on the stack [out] of elements kept so
    far (innermost first): empty elements and [.] are dropped, [..]
    removes the last real element, is kept in front of a relative path
    that has none left, and is dropped at the root. *)
Fixpoint cleanElems (rooted : bool) (out : list string) (elems : list string)
  : list string :=
  match elems with
  | [] => out
  | e :: rest =>
      if String.eqb e EmptyString then cleanElems rooted out rest
      else if String.eqb e "." then cleanElems rooted out rest
      else if String.eqb e ".." then
        match out with
        | top :: out' =>
            if String.eqb top ".." then cleanElems rooted (e :: out) rest
            else cleanElems rooted out' rest
        | [] =>
            if rooted then cleanElems rooted out rest
            else cleanElems rooted [e] rest
        end
      else cleanElems rooted (e :: out) rest
  end.

Definition Clean (path : string) : string :=
  match path with
  | EmptyString => "."
  | String c _ =>
      let rooted := Ascii.eqb c Separator in
      let out := rev (cleanElems rooted [] (split path)) in
      let body := join (str1 Separator) out in
      if rooted then String Separator body
      else if String.eqb body EmptyString then "." else body
  end.

(** [filepath.Join(elem...)]: leading empty elements are skipped, the
    rest is joined with the separator and cleaned. *)
Fixpoint Join (elem : list string) : string :=
  match elem with
  | [] => EmptyString
  | e :: rest =>
      if String.eqb e EmptyString then Join rest
      else Clean (join (str1 Separator) elem)
  end.

End Filepath.

(** ** [encoding/json] and [fmt]: the decoded payload and its [%v] form *)

Module GoValue.

(** A finite [float64], held as the shortest decimal that reads back to
    it, the [decimalSlice] which strconv's shortest conversion hands to
    its layout code: the digits [d] (none for zero, no trailing zero),
    the position [dp] of the decimal point, and the sign. *)
Record float64 := mkFloat { fneg : bool; d : string; dp : Z }.

Definition nd (f : float64) : Z := len (d f).

(** [d.d[i]], or [0] outside the digits. *)
Definition digitAt (f : float64) (i : Z) : ascii :=
  if (0 <=? i) && (i <? nd f) then
    match String.get (Z.to_nat i) (d f) with Some c => c | None => "0"%char end
  else "0"%char.

(** [d.d[i:j]] *)
Definition digitsBetween (f : float64) (i j : Z) : string :=
  take (Z.to_nat (j - i)) (drop (Z.to_nat i) (d f)).

(** [%e] of strconv/ftoa.go: [d.ddddde±dd]. *)
Definition fmtE (f : float64) (prec : Z) : string :=
  (if fneg f then "-" else EmptyString)
  +:+ str1 (if nd f =? 0 then "0"%char else digitAt f 0)
  +:+ (if 0 <? prec then
         let m := Z.min (nd f) (prec + 1) in
         "." +:+ (if 1 <? m then digitsBetween f 1 m else EmptyString)
         +:+ repeatByte (Z.to_nat (prec + 1 - Z.max 1 m)) "0"%char
       else EmptyString)
  +:+ "e"
  +:+ (let exp := if nd f =? 0 then 0 else dp f - 1 in
       (if exp <? 0 then "-" else "+")
       +:+ (let e := Z.abs exp in
            if e <? 10 then String "0" (str1 (digit e))
            else if e <? 100 then String (digit (e / 10)) (str1 (digit (e mod 10)))
            else String (digit (e / 100))
                   (String (digit ((e / 10) mod 10)) (str1 (digit (e mod 10)))))).

(** The fraction digits [d.d[dp+i]] for [i] from [i0] on, [n] of them. *)
Fixpoint fraction (f : float64) (i0 : Z) (n : nat) : string :=
  match n with
  | O => EmptyString
  | S n' => String (digitAt f (dp f + i0)) (fraction f (i0 + 1) n')
  end.

(** [%f] of strconv/ftoa.go: [ddddd.ddddd]. *)
Definition fmtF (f : float64) (prec : Z) : string :=
  (if fneg f then "-" else EmptyString)
  +:+ (if 0 <? dp f then
         let m := Z.min (nd f) (dp f) in
         digitsBetween f 0 m +:+ repeatByte (Z.to_nat (dp f - m)) "0"%char
       else "0")
  +:+ (if 0 <? prec then "." +:+ fraction f 0 (Z.to_nat prec)
       else EmptyString).

(** [strconv.FormatFloat(v, 'g', -1, 64)], which is what [%v] prints for
    a [float64].  The precision is the number of shortest digits;
    [formatDigits] picks [%e] when the decimal exponent is below -4 or
    at least [eprec], which is 6 in the shortest mode, and [%f]
    otherwise. *)
Definition formatFloat (f : float64) : string :=
  let prec := nd f in
  let eprec := 6 in
  let exp := dp f - 1 in
  if (exp <? -4) || (eprec <=? exp) then
    fmtE f ((if nd f <? prec then nd f else prec) - 1)
  else
    fmtF f (Z.max ((if dp f <? prec then nd f else prec) - dp f) 0).

#[local] Set Warnings "-register-all".

(** The tree [json.Unmarshal] builds in an [interface{}]: [nil], [bool],
    [float64], [string], [[]interface{}] and [map[string]interface{}].
    The same tree stands for the JSON text [json.Marshal] produced; the
    members of an object are kept in the order of the text, a key may
    repeat, and storing them in a Go map lets the last one win. *)
Inductive value :=
| VNil
| VBool (b : bool)
| VFloat (f : float64)
| VString (s : string)
| VSlice (l : list value)
| VMap (members : list (string * value)).

(** [m[k] = v] on a map kept as a list sorted by key, the order in which
    [fmt] prints a map. *)
Fixpoint mapassign {A} (k : string) (v : A) (m : list (string * A))
  : list (string * A) :=
  match m with
  | [] => [(k, v)]
  | (k', v') :: m' =>
      match String.compare k k' with
      | Lt => (k, v) :: m
      | Eq => (k, v) :: m'
      | Gt => (k', v') :: mapassign k v m'
      end
  end.

Definition sortedMap {A} (members : list (string * A)) : list (string * A) :=
  fold_left (fun m kv => mapassign (fst kv) (snd kv) m) members [].

(** [fmt.Sprintf("%v", val)] on a decoded value. *)
Fixpoint Sprintv (val : value) : string :=
  match val with
  | VNil => "<nil>"
  | VBool b => if b then "true" else "false"
  | VFloat f => formatFloat f
  | VString s => s
  | VSlice l => "[" +:+ Filepath.join " " (map Sprintv l) +:+ "]"
  | VMap members =>
      "map["
      +:+ Filepath.join " "
            (map (fun kv => fst kv +:+ ":" +:+ snd kv)
               (sortedMap (map (fun '(k, v) => (k, Sprintv v)) members)))
      +:+ "]"
  end.

(** The shortest digits of a non-negative integer: its decimal form
    without the trailing zeros. *)
Fixpoint stripZeros (rev_digits : string) : string :=
  match rev_digits with
  | String c s' => if Ascii.eqb c "0" then stripZeros s' else rev_digits
  | EmptyString => EmptyString
  end.

Fixpoint srev (acc s : string) : string :=
  match s with
  | EmptyString => acc
  | String c s' => srev (String c acc) s'
  end.

(** The [float64] of an integer [n] with [|n| <= 2^53], where the
    conversion is exact and the shortest decimal is [n] itself. *)
Definition float64OfInt (n : Z) : float64 :=
  let ds := decimal 20 (Z.abs n) EmptyString in
  mkFloat (n <? 0) (srev EmptyString (stripZeros (srev EmptyString ds))) (len ds).

End GoValue.

(** ** [os]: directories, files, and the ways the calls can fail *)

Module GoOS.

Inductive syserror := EOF | ENOENT | ENOSPC | EACCES | EIO.

#[global] Instance syserror_eq_dec : EqDecision syserror.
Proof. solve_decision. Defined.

(** The state of the file system: the directories, the regular files
    with their bytes, the paths of the descriptors now open, and how
    many more bytes the device takes ([None]: no limit). *)
Record OS := mkOS {
  dirs : gset string;
  files : gmap string string;
  opened : list string;
  space : option nat
}.

(** The flags of [os.OpenFile] that change what a write does. *)
Record flags := mkFlags { O_APPEND : bool; O_CREATE : bool; O_TRUNC : bool }.

(** An open descriptor, write-only. *)
Record File := mkFile { name : string; appendMode : bool; offset : nat }.

(** What the calls meet that the state above does not decide
    (permissions, a failing disk, a missing zone database). *)
Record Faults := mkFaults {
  mkdirErr : option syserror;
  openErr : option syserror;
  statErr : option syserror
}.

(** The paths [MkdirAll] makes sure exist besides [path] itself: for
    each element of the path, the path up to that element. *)
Fixpoint parents (pre : list string) (elems : list string) : list string :=
  match elems with
  | [] => []
  | e :: rest =>
      (if String.eqb e EmptyString then []
       else [Filepath.join (str1 Filepath.Separator) (pre ++ [e])])
      ++ parents (pre ++ [e]) rest
  end.

(** [os.MkdirAll(path, perm)].  The empty path has no directory to make
    and fails in [Mkdir]. *)
Definition MkdirAll (flt : Faults) (path : string) (os : OS)
  : option syserror * OS :=
  if String.eqb path EmptyString then (Some ENOENT, os)
  else
    match mkdirErr flt with
    | Some e => (Some e, os)
    | None =>
        (None, mkOS (dirs os ∪ list_to_set (path :: parents [] (Filepath.split path)))
                    (files os) (opened os) (space os))
    end.

(** [os.OpenFile(name, flag, perm)] *)
Definition OpenFile (flt : Faults) (name : string) (flag : flags) (os : OS)
  : (File + syserror) * OS :=
  match openErr flt with
  | Some e => (inr e, os)
  | None =>
      match files os !! name with
      | None =>
          if O_CREATE flag then
            (inl (mkFile name (O_APPEND flag) 0),
             mkOS (dirs os) (<[name := EmptyString]> (files os))
                  (name :: opened os) (space os))
          else (inr ENOENT, os)
      | Some _ =>
          (inl (mkFile name (O_APPEND flag) 0),
           mkOS (dirs os)
                (if O_TRUNC flag then <[name := EmptyString]> (files os)
                 else files os)
                (name :: opened os) (space os))
      end
  end.

Definition content (f : File) (os : OS) : string :=
  default EmptyString (files os !! name f).

(** [file.Stat()] followed by [Size()] *)
Definition StatSize (flt : Faults) (f : File) (os : OS) : Z + syserror :=
  match statErr flt with
  | Some e => inr e
  | None => inl (len (content f os))
  end.

(** [file.Write(p)]: the bytes go to the end of the file in append mode
    and to the descriptor's offset otherwise; a device without room
    takes what fits and reports the error.  The result is the number of
    bytes written, the error, the descriptor and the state. *)
Definition FileWrite (f : File) (p : string) (os : OS)
  : nat * option syserror * File * OS :=
  let old := content f os in
  let pos := if appendMode f then String.length old else offset f in
  let put (q : string) :=
    mkOS (dirs os)
         (<[name f := take pos old +:+ q +:+ drop (pos + String.length q) old]> (files os))
         (opened os)
         (match space os with
          | Some n => Some (n - String.length q)%nat
          | None => None
          end) in
  let moved (q : string) := mkFile (name f) (appendMode f) (pos + String.length q) in
  match space os with
  | None => (String.length p, None, moved p, put p)
  | Some n =>
      if (String.length p <=? n)%nat then (String.length p, None, moved p, put p)
      else (n, Some ENOSPC, moved (take n p), put (take n p))
  end.

(** [file.Close()]; the call sites drop its error. *)
Fixpoint removeFirst (x : string) (l : list string) : list string :=
  match l with
  | [] => []
  | y :: l' => if String.eqb x y then l' else y :: removeFirst x l'
  end.

Definition Close (f : File) (os : OS) : OS :=
  mkOS (dirs os) (files os) (removeFirst (name f) (opened os)) (space os).

End GoOS.

Import GoOS.

(** ** [bufio.Writer] over a file *)

Module Bufio.

Definition defaultBufSize : Z := 4096.

(** The writer: the descriptor [wr], the buffered bytes [b.buf[0:b.n]]
    and the sticky error. *)
Record Writer := mkWriter { wr : File; buf : string; err : option syserror }.

Definition NewWriter (f : File) : Writer := mkWriter f EmptyString None.

Definition state : Type := Writer * OS.

(** A writer call that reports an error or [nil]. *)
Definition io : Type := state -> option syserror * state.

Definition Available (b : Writer) : Z := defaultBufSize - len (buf b).

(** [b.Flush()] *)
Definition Flush : io := fun '(b, os) =>
  match err b with
  | Some e => (Some e, (b, os))
  | None =>
      if len (buf b) =? 0 then (None, (b, os))
      else
        let '(n, e, f, os') := FileWrite (wr b) (buf b) os in
        match e with
        | Some e => (Some e, (mkWriter f (drop n (buf b)) (Some e), os'))
        | None => (None, (mkWriter f EmptyString None, os'))
        end
  end.

(** [b.WriteByte(c)] *)
Definition WriteByte (c : ascii) : io := fun '(b, os) =>
  match err b with
  | Some e => (Some e, (b, os))
  | None =>
      let '(fe, (b1, os1)) :=
        if Available b <=? 0 then Flush (b, os) else (None, (b, os)) in
      match fe with
      | Some _ => (err b1, (b1, os1))
      | None => (None, (mkWriter (wr b1) (buf b1 +:+ str1 c) (err b1), os1))
      end
  end.

(** [b.WriteRune(r)] for a rune below [utf8.RuneSelf]. *)
Definition WriteRune (r : ascii) : io := WriteByte r.

(** The tail of [WriteString] once the loop is left: report the sticky
    error or copy what remains into the buffer. *)
Definition copyRest (s : string) : io := fun '(b, os) =>
  match err b with
  | Some e => (Some e, (b, os))
  | None => (None, (mkWriter (wr b) (buf b +:+ s) None, os))
  end.

(** One pass of the loop of [WriteString] with an empty buffer: the
    string goes to the file in one write ([*os.File] is an
    [io.StringWriter]). *)
Definition writeThrough (s : string) : state -> string * state := fun '(b, os) =>
  let '(n, e, f, os') := FileWrite (wr b) s os in
  (drop n s, (mkWriter f (buf b) e, os')).

(** [b.WriteString(s)].  The loop runs while [s] is longer than the room
    left and no error is set: on an empty buffer the string is written
    through, otherwise the buffer is filled and flushed, after which it
    is empty and the next pass, if any, writes through. *)
Definition WriteString (s : string) : io := fun '(b, os) =>
  if (Available b <? len s) && bool_decide (err b = None) then
    if len (buf b) =? 0 then
      let '(s1, st1) := writeThrough s (b, os) in copyRest s1 st1
    else
      let n := Z.to_nat (Available b) in
      let '(_, (b1, os1)) :=
        Flush (mkWriter (wr b) (buf b +:+ take n s) (err b), os) in
      let s1 := drop n s in
      if (Available b1 <? len s1) && bool_decide (err b1 = None) then
        let '(s2, st2) := writeThrough s1 (b1, os1) in copyRest s2 st2
      else copyRest s1 (b1, os1)
  else copyRest s (b, os).

(** [b.Write(nil)], the probe [csv.Writer.Error] uses. *)
Definition WriteNil : io := copyRest EmptyString.

(** Run [k] unless [a] reported an error. *)
Definition andThen (a k : io) : io := fun st =>
  match a st with
  | (Some e, st') => (Some e, st')
  | (None, st') => k st'
  end.

Definition ok : io := fun st => (None, st).

End Bufio.

Notation "a ;;; k" := (Bufio.andThen a k) (at level 65, right associativity).

(** ** [unicode/utf8] and [unicode]: the first rune and [IsSpace] *)

Module Utf8.

Definition RuneError : Z := 65533.

Definition inRange (lo hi x : Z) : bool := (lo <=? x) && (x <=? hi).

Definition cont (c : ascii) : bool := inRange 128 191 (byteval c).

(** The rune [utf8.DecodeRuneInString(s)] returns: the byte itself below
    0x80, the decoded rune of a well-formed sequence of two to four
    bytes (the second byte within the range its lead byte accepts), and
    [RuneError] for anything else. *)
Definition DecodeRuneInString (s : string) : Z :=
  match s with
  | EmptyString => RuneError
  | String c0 r0 =>
      let s0 := byteval c0 in
      if s0 <? 128 then s0
      else
        let '(sz, lo, hi) :=
          if inRange 194 223 s0 then (2, 128, 191)
          else if s0 =? 224 then (3, 160, 191)
          else if inRange 225 236 s0 then (3, 128, 191)
          else if s0 =? 237 then (3, 128, 159)
          else if inRange 238 239 s0 then (3, 128, 191)
          else if s0 =? 240 then (4, 144, 191)
          else if inRange 241 243 s0 then (4, 128, 191)
          else if s0 =? 244 then (4, 128, 143)
          else (1, 0, 0) in
        if sz =? 1 then RuneError
        else
          match r0 with
          | EmptyString => RuneError
          | String c1 r1 =>
              let s1 := byteval c1 in
              if negb (inRange lo hi s1) then RuneError
              else if sz =? 2 then
                Z.lor (Z.shiftl (Z.land s0 31) 6) (Z.land s1 63)
              else
                match r1 with
                | EmptyString => RuneError
                | String c2 r2 =>
                    let s2 := byteval c2 in
                    if negb (cont c2) then RuneError
                    else if sz =? 3 then
                      Z.lor (Z.lor (Z.shiftl (Z.land s0 15) 12)
                                   (Z.shiftl (Z.land s1 63) 6))
                            (Z.land s2 63)
                    else
                      match r2 with
                      | EmptyString => RuneError
                      | String c3 _ =>
                          if negb (cont c3) then RuneError
                          else
                            Z.lor (Z.lor (Z.lor (Z.shiftl (Z.land s0 7) 18)
                                                (Z.shiftl (Z.land s1 63) 12))
                                         (Z.shiftl (Z.land s2 63) 6))
                                  (Z.land (byteval c3) 63)
                      end
                end
          end
  end.

(** [unicode.IsSpace(r)]: the Latin-1 spaces, then the [White_Space]
    table. *)
Definition IsSpace (r : Z) : bool :=
  if r <=? 255 then
    (r =? 9) || (r =? 10) || (r =? 11) || (r =? 12) || (r =? 13)
    || (r =? 32) || (r =? 133) || (r =? 160)
  else
    (r =? 5760) || inRange 8192 8202 r || inRange 8232 8233 r
    || (r =? 8239) || (r =? 8287) || (r =? 12288).

End Utf8.

(** ** [encoding/csv]: the writer *)

Module Csv.

Import Bufio.

(** The bytes that force quotes: the delimiter, the quote, CR, LF. *)
Definition special (c : ascii) : bool :=
  Ascii.eqb c lf || Ascii.eqb c cr || Ascii.eqb c dquote || Ascii.eqb c comma.

Fixpoint anyByte (p : ascii -> bool) (s : string) : bool :=
  match s with
  | EmptyString => false
  | String c s' => p c || anyByte p s'
  end.

(** [w.fieldNeedsQuotes(field)] with [Comma = ','] *)
Definition fieldNeedsQuotes (field : string) : bool :=
  if String.eqb field EmptyString then false
  else if String.eqb field "\." then true
  else if anyByte special field then true
  else Utf8.IsSpace (Utf8.DecodeRuneInString field).

(** The bytes that end a verbatim run inside a quoted field, those
    [strings.IndexAny] looks for: the quote, CR and LF. *)
Definition stop (c : ascii) : bool :=
  Ascii.eqb c dquote || Ascii.eqb c cr || Ascii.eqb c lf.

(** The loop of [Write] over a quoted field, with [UseCRLF] off: the run
    [seg] read so far is written when a quote, CR or LF is met, then the
    byte itself (a quote as two quotes); a last run is written at the
    end of the field. *)
Fixpoint writeQuoted (seg : string) (field : string) : io :=
  match field with
  | EmptyString =>
      if String.eqb seg EmptyString then ok else WriteString seg
  | String c rest =>
      if stop c then
        WriteString seg ;;;
        (if Ascii.eqb c dquote then WriteString (String dquote (str1 dquote))
         else WriteByte c) ;;;
        writeQuoted EmptyString rest
      else writeQuoted (seg +:+ str1 c) rest
  end.

Definition writeField (field : string) : io :=
  if negb (fieldNeedsQuotes field) then WriteString field
  else WriteByte dquote ;;; writeQuoted EmptyString field ;;; WriteByte dquote.

(** The loop [for n, field := range record]; [n > 0] is [sep]. *)
Fixpoint writeFields (sep : bool) (record : list string) : io :=
  match record with
  | [] => ok
  | field :: rest =>
      (if sep then WriteRune comma else ok) ;;;
      writeField field ;;;
      writeFields true rest
  end.

(** [w.Write(record)] *)
Definition Write (record : list string) : io :=
  writeFields false record ;;; WriteByte lf.

(** [w.Flush()] and [w.Error()] *)
Definition Flush : io := Bufio.Flush.
Definition Error : io := Bufio.WriteNil.

(** *** The line [Write] produces, as a function *)

Fixpoint quoted (field : string) : string :=
  match field with
  | EmptyString => EmptyString
  | String c rest =>
      if Ascii.eqb c dquote then String dquote (String dquote (quoted rest))
      else String c (quoted rest)
  end.

Definition encodeField (field : string) : string :=
  if fieldNeedsQuotes field then String dquote (quoted field +:+ str1 dquote)
  else field.

Fixpoint encodeFields (sep : bool) (record : list string) : string :=
  match record with
  | [] => EmptyString
  | field :: rest =>
      (if sep then str1 comma else EmptyString)
      +:+ encodeField field +:+ encodeFields true rest
  end.

Definition encode (record : list string) : string :=
  encodeFields false record +:+ str1 lf.

(** *** A reader for one line, after RFC 4180

    A field is either quoted, ending at a quote that is not doubled, or
    runs up to the next comma or line end; inside quotes every byte but
    the quote stands for itself.  The line ends with LF or CR LF. *)




End Csv.

(** ** The package: [RecordToCSVService], [Record] and [Append] *)

Module Recordtocsv.

Import GoTime GoValue.

Record RecordToCSVService := NewRecordToCSV {
  Dir : string;
  Filename : string;
  Column : list string;
  RecordType : string
}.

(** A [*time.Location]. *)
Record Location := mkLocation { zone : string; utcOffset : Z }.

(** What a call reads from its surroundings: the zone database, the
    clock read in a location, and the faults of the file calls. *)
Record Env := mkEnv {
  LoadLocation : string -> option Location;
  Now : Location -> Time;
  faults : Faults
}.

(** The errors [Record] and [Append] build with [fmt.Errorf], one
    constructor per call site. *)
Inductive error :=
| ErrLoadLocation
| ErrRecordType (recordType : string)
| ErrMkdirAll (dir : string) (cause : syserror)
| ErrAppend (filePath : string) (cause : error)
| ErrOpen (filename : string) (cause : syserror)
| ErrStat (filename : string) (cause : syserror)
| ErrHeader (filename : string) (cause : syserror)
| ErrMarshal
| ErrUnmarshal
| ErrRecord (filename : string) (cause : syserror)
| ErrWriter (cause : syserror).

(** The text of each message up to its first verb. *)
Definition message (e : error) : string :=
  match e with
  | ErrLoadLocation => "failed to load time zone 'Asia/Jakarta': "
  | ErrRecordType _ => "unsupported record type: "
  | ErrMkdirAll _ _ => "failed to create directory "
  | ErrAppend _ _ => "failed to append record to "
  | ErrOpen _ _ => "failed to open/create CSV file "
  | ErrStat _ _ => "failed to get file info for "
  | ErrHeader _ _ => "failed to write CSV header to "
  | ErrMarshal => "failed to marshal payload to JSON: "
  | ErrUnmarshal => "failed to unmarshal JSON to map: "
  | ErrRecord _ _ => "failed to write CSV record to "
  | ErrWriter _ => "CSV writer encountered an error: "
  end.

(** The argument [data interface{}], by what [json.Marshal] makes of
    it: the nil interface, a value with a JSON form, or a value it
    rejects (a channel, a function, a NaN). *)
Inductive payload :=
| Nil
| Value (json : value)
| Unsupported.

(** [json.Marshal(data)]; [None] is the error. *)
Definition Marshal (data : payload) : option value :=
  match data with
  | Nil => Some VNil
  | Value json => Some json
  | Unsupported => None
  end.

(** [json.Unmarshal(jsonBytes, &dataMap)] into a nil
    [map[string]interface{}]: [null] leaves the map nil, where every
    lookup misses; an object fills it member by member; anything else is
    an [UnmarshalTypeError]. *)
Definition Unmarshal (json : value) : option (gmap string value) :=
  match json with
  | VNil => Some ∅
  | VMap members =>
      Some (fold_left (fun m kv => <[fst kv := snd kv]> m) members ∅)
  | _ => None
  end.

(** The body of the loop over [column]: one field of the row. *)
Definition field (dataMap : gmap string value) (col : string) : string :=
  match dataMap !! col with
  | Some val =>
      match val with
      | VNil => EmptyString
      | _ => Sprintv val
      end
  | None => EmptyString
  end.

Definition appendFlags : flags := mkFlags true true false.

(** The body of [Append] between the two [defer]s and the return. *)
Definition appendBody (env : Env) (filename : string) (column : list string)
    (data : payload) (file : File) (st : Bufio.state)
  : option error * Bufio.state :=
  match StatSize (faults env) file (snd st) with
  | inr e => (Some (ErrStat filename e), st)
  | inl size =>
      let '(herr, st1) :=
        if size =? 0 then Csv.Write column st else (None, st) in
      match herr with
      | Some e => (Some (ErrHeader filename e), st1)
      | None =>
          match Marshal data with
          | None => (Some ErrMarshal, st1)
          | Some jsonBytes =>
              match Unmarshal jsonBytes with
              | None => (Some ErrUnmarshal, st1)
              | Some dataMap =>
                  let record := map (field dataMap) column in
                  match Csv.Write record st1 with
                  | (Some e, st2) => (Some (ErrRecord filename e), st2)
                  | (None, st2) =>
                      match Csv.Error st2 with
                      | (Some e, st3) =>
                          if bool_decide (e = EOF) then (None, st3)
                          else (Some (ErrWriter e), st3)
                      | (None, st3) => (None, st3)
                      end
                  end
              end
          end
      end
  end.

(** [r.Append(filename, column, data)]: the file is opened, the body
    runs, and the deferred calls follow in reverse order, the flush of
    the CSV writer and then the close, both after the result is fixed. *)
Definition Append (env : Env) (filename : string) (column : list string)
    (data : payload) (os : OS) : option error * OS :=
  match OpenFile (faults env) filename appendFlags os with
  | (inr e, os1) => (Some (ErrOpen filename e), os1)
  | (inl file, os1) =>
      let '(result, st) :=
        appendBody env filename column data file (Bufio.NewWriter file, os1) in
      let '(_, (_, os2)) := Csv.Flush st in
      (result, Close file os2)
  end.

(** The [switch r.RecordType]: the suffix, or [None] in the default
    case. *)
Definition periodSuffix (recordType : string) (timeNow : Time) : option string :=
  if String.eqb recordType "daily" then Some (Format timeNow "2006_01_02")
  else if String.eqb recordType "monthly" then Some (Format timeNow "2006_01")
  else if String.eqb recordType "yearly" then Some (Format timeNow "2006")
  else None.

(** [filepath.Join(r.Dir, fmt.Sprintf("%s_%s.csv", r.Filename, suffix))] *)
Definition filePath (r : RecordToCSVService) (suffix : string) : string :=
  Filepath.Join [Dir r; Filename r +:+ "_" +:+ suffix +:+ ".csv"].

(** [r.Record(payload)]; the name carries an underscore because
    [Record] is a keyword here. *)
Definition Record_ (env : Env) (r : RecordToCSVService) (data : payload)
    (os : OS) : option error * OS :=
  match LoadLocation env "Asia/Jakarta" with
  | None => (Some ErrLoadLocation, os)
  | Some loc =>
      let timeNow := Now env loc in
      match periodSuffix (RecordType r) timeNow with
      | None => (Some (ErrRecordType (RecordType r)), os)
      | Some suffix =>
          match MkdirAll (faults env) (Dir r) os with
          | (Some e, os1) => (Some (ErrMkdirAll (Dir r) e), os1)
          | (None, os1) =>
              match Append env (filePath r suffix) (Column r) data os1 with
              | (Some e, os2) => (Some (ErrAppend (filePath r suffix) e), os2)
              | (None, os2) => (None, os2)
              end
          end
      end
  end.

End Recordtocsv.

Import GoTime GoValue Recordtocsv.

(** * Properties *)

(** ** Byte strings *)

Section BytesFacts.

Lemma app_cons (x : ascii) (a b : string) :
  String x a +:+ b = String x (a +:+ b).
Proof. reflexivity. Qed.

Lemma app_nil_l (b : string) : EmptyString +:+ b = b.
Proof. reflexivity. Qed.


Lemma app_nil_r (s : string) : s +:+ EmptyString = s.
Proof. induction s as [|c s IH]; [reflexivity|]. by rewrite app_cons, IH. Qed.

Lemma app_assoc (a b c : string) : (a +:+ b) +:+ c = a +:+ b +:+ c.
Proof. induction a as [|x a IH]; [reflexivity|]. by rewrite !app_cons, IH. Qed.

Lemma length_app (a b : string) :
  String.length (a +:+ b) = (String.length a + String.length b)%nat.
Proof.
  induction a as [|x a IH]; [reflexivity|]. rewrite app_cons. cbn. by rewrite IH.
Qed.

Lemma take_drop (n : nat) (s : string) : take n s +:+ drop n s = s.
Proof.
  revert s; induction n as [|n IH]; intros [|c s]; cbn; try reflexivity.
  by rewrite app_cons, IH.
Qed.

Lemma take_length (s : string) : take (String.length s) s = s.
Proof. induction s as [|c s IH]; [reflexivity|]. cbn. by rewrite IH. Qed.

Lemma drop_past (n : nat) (s : string) :
  (String.length s <= n)%nat -> drop n s = EmptyString.
Proof.
  revert s; induction n as [|n IH]; intros [|c s] H; cbn in *;
    try reflexivity; try lia.
  apply IH; lia.
Qed.

Lemma len_zero (s : string) : (len s =? 0) = true -> s = EmptyString.
Proof.
  destruct s; [reflexivity|]. unfold len. intros H%Z.eqb_eq.
  cbn [String.length] in H. lia.
Qed.

Lemma eqb_empty (s : string) :
  String.eqb s EmptyString = true -> s = EmptyString.
Proof. by destruct s. Qed.

End BytesFacts.

(** ** The period suffix and the target path *)

Section Suffix.

(** The spec's words: a number as two, respectively four, decimal
    digits. *)
Definition twoDigits (n : Z) : string :=
  String (digit (n / 10)) (str1 (digit (n mod 10))).

Definition fourDigits (n : Z) : string :=
  String (digit (n / 1000))
    (String (digit ((n / 100) mod 10))
       (String (digit ((n / 10) mod 10)) (str1 (digit (n mod 10))))).

(** A civil date of the years 0 to 9999, those a four-digit year can
    name. *)
Definition civil (t : Time) : Prop :=
  0 <= year t <= 9999 /\ 1 <= month t <= 12 /\ 1 <= day t <= 31.

(** Checking a property of [0 .. n-1] by running it. *)
Lemma below_check (p : Z -> bool) (n : Z) :
  forallb (fun k => p (Z.of_nat k)) (seq 0 (Z.to_nat n)) = true ->
  forall x, 0 <= x < n -> p x = true.
Proof.
  intros H x Hx.
  rewrite forallb_forall in H.
  specialize (H (Z.to_nat x)).
  rewrite Z2Nat.id in H by lia.
  apply H, in_seq. lia.
Qed.

Lemma appendInt_four (y : Z) :
  0 <= y <= 9999 -> appendInt y 4 = fourDigits y.
Proof.
  intros Hy.
  apply String.eqb_eq.
  apply (below_check (fun y => String.eqb (appendInt y 4) (fourDigits y)) 10000);
    [vm_compute; reflexivity | lia].
Qed.

Lemma appendInt_two (n : Z) :
  0 <= n <= 99 -> appendInt n 2 = twoDigits n.
Proof.
  intros Hn.
  apply String.eqb_eq.
  apply (below_check (fun n => String.eqb (appendInt n 2) (twoDigits n)) 100);
    [vm_compute; reflexivity | lia].
Qed.

Lemma Format_daily (t : Time) :
  Format t "2006_01_02"
  = appendInt (year t) 4 +:+ "_" +:+ appendInt (month t) 2
    +:+ "_" +:+ appendInt (day t) 2.
Proof. cbn. by rewrite !app_nil_r. Qed.

Lemma Format_monthly (t : Time) :
  Format t "2006_01" = appendInt (year t) 4 +:+ "_" +:+ appendInt (month t) 2.
Proof. cbn. by rewrite !app_nil_r. Qed.

Lemma Format_yearly (t : Time) : Format t "2006" = appendInt (year t) 4.
Proof. cbn. by rewrite !app_nil_r. Qed.

(** C2.  For an instant whose civil date in the reference zone has a
    year of at most four digits, the suffix [Record] computes is the
    four-digit year, the two-digit month and the two-digit day joined by
    underscores for "daily", the year and month for "monthly", the year
    for "yearly"; the path it hands to [Append] is the directory joined
    with the base name, an underscore, the suffix and ".csv". *)
Theorem period_suffix_and_path (r : RecordToCSVService) (t : Time) :
  civil t ->
  periodSuffix "daily" t
    = Some (fourDigits (year t) +:+ "_" +:+ twoDigits (month t)
            +:+ "_" +:+ twoDigits (day t))
  /\ periodSuffix "monthly" t
    = Some (fourDigits (year t) +:+ "_" +:+ twoDigits (month t))
  /\ periodSuffix "yearly" t = Some (fourDigits (year t))
  /\ forall suffix,
       filePath r suffix
       = Filepath.Join [Dir r; Filename r +:+ "_" +:+ suffix +:+ ".csv"].
Proof.
  intros (Hy & Hm & Hd).
  unfold periodSuffix. cbn [String.eqb Ascii.eqb Bool.eqb].
  rewrite Format_daily, Format_monthly, Format_yearly.
  rewrite appendInt_four by lia.
  rewrite !appendInt_two by lia.
  repeat split.
Qed.

Definition instant_2025_08_26 : Time := mkTime 2025 8 26 13 5 9 238.

Lemma period_suffix_and_path_witness :
  civil instant_2025_08_26
  /\ periodSuffix "daily" instant_2025_08_26 = Some "2025_08_26"
  /\ periodSuffix "monthly" instant_2025_08_26 = Some "2025_08"
  /\ periodSuffix "yearly" instant_2025_08_26 = Some "2025"
  /\ filePath (NewRecordToCSV "files/record" "booking_record" [] "daily")
       "2025_08_26"
     = "files/record/booking_record_2025_08_26.csv".
Proof.
  assert (H : civil instant_2025_08_26) by (unfold civil; cbn; lia).
  split; [exact H|].
  destruct (period_suffix_and_path
              (NewRecordToCSV "files/record" "booking_record" [] "daily")
              instant_2025_08_26 H) as (Hd & Hm & Hy & Hpath).
  split; [rewrite Hd; reflexivity|].
  split; [rewrite Hm; reflexivity|].
  split; [rewrite Hy; reflexivity|].
  rewrite Hpath; reflexivity.
Defined.

End Suffix.

(** ** The writer on a device without faults

    [Inv fname os0 s st] holds of a writer state when the writer has no
    error, the device has no limit, the descriptor appends to [fname],
    and the bytes of [fname] followed by the buffered bytes are [s];
    everything else is as in [os0]. *)

Section Stream.

Import Bufio.

Definition Inv (fname : string) (os0 : OS) (s : string) (st : Bufio.state) : Prop :=
  name (wr (fst st)) = fname
  /\ appendMode (wr (fst st)) = true
  /\ err (fst st) = None
  /\ space (snd st) = None
  /\ dirs (snd st) = dirs os0
  /\ opened (snd st) = opened os0
  /\ exists c, files (snd st) = <[fname := c]> (files os0)
               /\ c +:+ buf (fst st) = s.

(** [op] succeeds and adds the bytes [x] to the stream. *)
Definition emits (op : io) (x : string) : Prop :=
  forall fname os0 s st,
    Inv fname os0 s st ->
    fst (op st) = None /\ Inv fname os0 (s +:+ x) (snd (op st)).

Lemma FileWrite_append (f : File) (p : string) (os : OS) :
  appendMode f = true -> space os = None ->
  FileWrite f p os
  = (String.length p, None,
     mkFile (name f) true (String.length (content f os) + String.length p),
     mkOS (dirs os) (<[name f := content f os +:+ p]> (files os))
          (opened os) None).
Proof.
  intros Ha Hs. unfold FileWrite. rewrite Ha, Hs.
  rewrite take_length, drop_past by lia.
  by rewrite app_nil_r.
Qed.

Lemma content_insert (f : File) (c : string) (os os0 : OS) :
  files os = <[name f := c]> (files os0) -> content f os = c.
Proof. intros H. unfold content. by rewrite H, lookup_insert_eq. Qed.

Lemma Flush_Inv fname os0 s st :
  Inv fname os0 s st ->
  fst (Flush st) = None
  /\ Inv fname os0 s (snd (Flush st))
  /\ buf (fst (snd (Flush st))) = EmptyString.
Proof.
  destruct st as [b os]. intros (Hn & Ha & He & Hs & Hd & Ho & c & Hf & Hc).
  cbn in *. rewrite He.
  destruct (len (buf b) =? 0) eqn:Hz.
  - apply len_zero in Hz. cbn. unfold Inv; cbn. eauto 12.
  - rewrite FileWrite_append by done. cbn.
    split; [done|]. split; [|done].
    unfold Inv; cbn. repeat (split; [done|]).
    exists (c +:+ buf b). split; [|by rewrite app_nil_r].
    subst fname. rewrite (content_insert _ c os os0 Hf), Hf.
    by rewrite insert_insert_eq.
Qed.

Lemma emits_ok : emits ok EmptyString.
Proof. intros fname os0 s st H. cbn. by rewrite app_nil_r. Qed.

Lemma emits_andThen (a k : io) (x y : string) :
  emits a x -> emits k y -> emits (a ;;; k) (x +:+ y).
Proof.
  intros Ha Hk fname os0 s st H. unfold andThen.
  destruct (Ha _ _ _ _ H) as [E1 I1].
  destruct (a st) as [[e|] st1]; [discriminate|]. cbn in I1.
  rewrite <- app_assoc. by apply Hk.
Qed.

Lemma copyRest_Inv fname os0 s x st :
  Inv fname os0 s st ->
  fst (copyRest x st) = None /\ Inv fname os0 (s +:+ x) (snd (copyRest x st)).
Proof.
  destruct st as [b os]. intros (Hn & Ha & He & Hs & Hd & Ho & c & Hf & Hc).
  cbn in *. rewrite He. cbn. split; [done|].
  unfold Inv; cbn. repeat (split; [done|]).
  exists c. split; [done|]. by rewrite <- Hc, app_assoc.
Qed.

Lemma emits_WriteByte (c : ascii) : emits (WriteByte c) (str1 c).
Proof.
  intros fname os0 s [b os] H. unfold WriteByte.
  pose proof H as (Hn & Ha & He & Hs & Hd & Ho & c0 & Hf & Hc). cbn in He.
  rewrite He.
  destruct (Available b <=? 0).
  - destruct (Flush_Inv _ _ _ _ H) as (E & I & _).
    destruct (Flush (b, os)) as [[e|] [b1 os1]]; [discriminate|].
    destruct I as (Hn1 & Ha1 & He1 & Hs1 & Hd1 & Ho1 & c1 & Hf1 & Hc1).
    cbn in *. split; [done|].
    unfold Inv; cbn. repeat (split; [done|]).
    exists c1. split; [done|]. by rewrite <- Hc1, app_assoc.
  - cbn in *. split; [done|].
    unfold Inv; cbn. repeat (split; [done|]).
    exists c0. split; [done|]. by rewrite <- Hc, app_assoc.
Qed.

Lemma writeThrough_Inv fname os0 s x st :
  Inv fname os0 s st -> buf (fst st) = EmptyString ->
  fst (writeThrough x st) = EmptyString
  /\ Inv fname os0 (s +:+ x) (snd (writeThrough x st)).
Proof.
  destruct st as [b os]. intros (Hn & Ha & He & Hs & Hd & Ho & c & Hf & Hc) Hb.
  cbn in *. rewrite FileWrite_append by done. cbn.
  split; [by apply drop_past|].
  unfold Inv; cbn. repeat (split; [done|]).
  exists (c +:+ x). rewrite Hb in *. rewrite app_nil_r in *. subst s.
  split; [|done].
  subst fname. rewrite (content_insert _ c os os0 Hf), Hf.
  by rewrite insert_insert_eq.
Qed.

Lemma through_then_rest fname os0 s x st :
  Inv fname os0 s st -> buf (fst st) = EmptyString ->
  fst (let '(s1, st1) := writeThrough x st in copyRest s1 st1) = None
  /\ Inv fname os0 (s +:+ x)
       (snd (let '(s1, st1) := writeThrough x st in copyRest s1 st1)).
Proof.
  intros H Hb. destruct (writeThrough_Inv _ _ _ x _ H Hb) as [E I].
  destruct (writeThrough x st) as [s1 st1]. cbn in E, I. subst s1.
  destruct (copyRest_Inv _ _ _ EmptyString _ I) as [E' I'].
  by rewrite app_nil_r in I'.
Qed.

Lemma emits_WriteString (x : string) : emits (WriteString x) x.
Proof.
  intros fname os0 s [b os] H. unfold WriteString.
  pose proof H as (Hn & Ha & He & Hs & Hd & Ho & c0 & Hf & Hc). cbn in He.
  destruct ((Available b <? len x) && bool_decide (err b = None)) eqn:Hbig;
    [|by apply copyRest_Inv].
  destruct (len (buf b) =? 0) eqn:Hz.
  - apply len_zero in Hz. by apply through_then_rest.
  - set (n := Z.to_nat (Available b)).
    assert (I0 : Inv fname os0 (s +:+ take n x)
                   (mkWriter (wr b) (buf b +:+ take n x) (err b), os)).
    { unfold Inv; cbn in *. repeat (split; [done|]).
      exists c0. split; [done|]. by rewrite <- Hc, app_assoc. }
    destruct (Flush_Inv _ _ _ _ I0) as (E & I & Hb).
    destruct (Flush _) as [fe [b1 os1]]. cbn in E, I, Hb.
    assert (Hx : (s +:+ take n x) +:+ drop n x = s +:+ x)
      by (by rewrite app_assoc, take_drop).
    destruct ((Available b1 <? len (drop n x)) && bool_decide (err b1 = None)).
    + rewrite <- Hx. by apply through_then_rest.
    + rewrite <- Hx. by apply copyRest_Inv.
Qed.

Lemma emits_WriteRune (c : ascii) : emits (WriteRune c) (str1 c).
Proof. apply emits_WriteByte. Qed.

Lemma emits_eq (op : io) (x y : string) : emits op x -> x = y -> emits op y.
Proof. by intros H <-. Qed.

Lemma stop_not_quote (c : ascii) : Csv.stop c = false -> Ascii.eqb c dquote = false.
Proof. unfold Csv.stop. by intros [[H _]%orb_false_elim _]%orb_false_elim. Qed.

Lemma emits_writeQuoted (field seg : string) :
  emits (Csv.writeQuoted seg field) (seg +:+ Csv.quoted field).
Proof.
  revert seg. induction field as [|c rest IH]; intros seg; cbn [Csv.writeQuoted Csv.quoted].
  - rewrite app_nil_r. destruct (String.eqb seg EmptyString) eqn:E.
    + apply eqb_empty in E. subst seg. apply emits_ok.
    + apply emits_WriteString.
  - destruct (Csv.stop c) eqn:Hstop.
    + destruct (Ascii.eqb c dquote) eqn:Hq.
      * eapply emits_eq.
        { apply emits_andThen; [apply emits_WriteString|].
          apply emits_andThen; [apply emits_WriteString | apply (IH EmptyString)]. }
        reflexivity.
      * eapply emits_eq.
        { apply emits_andThen; [apply emits_WriteString|].
          apply emits_andThen; [apply emits_WriteByte | apply (IH EmptyString)]. }
        reflexivity.
    + rewrite (stop_not_quote _ Hstop).
      eapply emits_eq; [apply IH|]. by rewrite app_assoc.
Qed.

Lemma emits_writeField (field : string) :
  emits (Csv.writeField field) (Csv.encodeField field).
Proof.
  unfold Csv.writeField, Csv.encodeField.
  destruct (Csv.fieldNeedsQuotes field); cbn [negb].
  - eapply emits_eq.
    { apply emits_andThen; [apply emits_WriteByte|].
      apply emits_andThen; [apply emits_writeQuoted | apply emits_WriteByte]. }
    reflexivity.
  - apply emits_WriteString.
Qed.

Lemma emits_writeFields (record : list string) (sep : bool) :
  emits (Csv.writeFields sep record) (Csv.encodeFields sep record).
Proof.
  revert sep. induction record as [|f rest IH]; intros sep;
    cbn [Csv.writeFields Csv.encodeFields]; [apply emits_ok|].
  apply emits_andThen; [|apply emits_andThen; [apply emits_writeField | apply IH]].
  destruct sep; [apply emits_WriteRune | apply emits_ok].
Qed.

(** On a device without faults [Write] succeeds and the stream grows by
    the line [encode record]. *)
Lemma emits_Write (record : list string) :
  emits (Csv.Write record) (Csv.encode record).
Proof.
  apply emits_andThen; [apply emits_writeFields | apply emits_WriteByte].
Qed.

End Stream.

(** ** [Append] and [Record] when no call fails *)

Section NoFault.

(** What a call adds to a file whose bytes were [old], and what it
    returns: the header line in front if [old] is empty, then the data
    line unless the payload has no mapping. *)
Definition header (column : list string) (old : string) : string :=
  if len old =? 0 then Csv.encode column else EmptyString.

Definition row (column : list string) (data : payload) : string + error :=
  match Marshal data with
  | None => inr ErrMarshal
  | Some json =>
      match Unmarshal json with
      | None => inr ErrUnmarshal
      | Some dataMap => inl (Csv.encode (map (field dataMap) column))
      end
  end.

Definition added (column : list string) (data : payload) (old : string) : string :=
  header column old
  +:+ match row column data with inl line => line | inr _ => EmptyString end.

Definition outcome (column : list string) (data : payload) : option error :=
  match row column data with inl _ => None | inr e => Some e end.

Lemma appendBody_Inv env filename column data file fname os0 s st :
  Inv fname os0 s st ->
  Bufio.buf (fst st) = EmptyString ->
  name file = fname ->
  statErr (faults env) = None ->
  fst (appendBody env filename column data file st) = outcome column data
  /\ Inv fname os0 (s +:+ added column data s)
       (snd (appendBody env filename column data file st)).
Proof.
  intros I Hb Hf Hstat. unfold appendBody, StatSize. rewrite Hstat.
  assert (Hc : content file (snd st) = s).
  { destruct I as (_ & _ & _ & _ & _ & _ & c & Hfiles & Hc).
    rewrite Hb, app_nil_r in Hc. subst c fname. by eapply content_insert. }
  rewrite Hc. unfold added, outcome, row, header.
  assert (I1 : fst (if len s =? 0 then Csv.Write column st else (None, st)) = None
               /\ Inv fname os0
                    (s +:+ (if len s =? 0 then Csv.encode column else EmptyString))
                    (snd (if len s =? 0 then Csv.Write column st else (None, st)))).
  { destruct (len s =? 0); [by apply emits_Write|]. by rewrite app_nil_r. }
  destruct (if len s =? 0 then Csv.Write column st else (None, st))
    as [[e|] st1]; destruct I1 as [E1 I1]; [discriminate|]. cbn in I1.
  destruct (Marshal data) as [json|]; [|by rewrite app_nil_r].
  destruct (Unmarshal json) as [dataMap|]; [|by rewrite app_nil_r].
  destruct (emits_Write (map (field dataMap) column) _ _ _ _ I1) as [E2 I2].
  destruct (Csv.Write _ st1) as [[e|] st2]; [discriminate|]. cbn in I2.
  destruct (copyRest_Inv _ _ _ EmptyString _ I2) as [E3 I3].
  unfold Csv.Error, Bufio.WriteNil.
  destruct (Bufio.copyRest EmptyString st2) as [[e|] st3]; [discriminate|].
  cbn in *. split; [done|]. by rewrite app_nil_r, app_assoc in I3.
Qed.

(** With no fault in [OpenFile], [Stat] and the device, [Append] leaves
    the file with its old bytes followed by [added], touches nothing
    else, and returns [outcome]. *)
Lemma Append_no_fault env filename column data os :
  openErr (faults env) = None ->
  statErr (faults env) = None ->
  space os = None ->
  let old := default EmptyString (files os !! filename) in
  Append env filename column data os
  = (outcome column data,
     mkOS (dirs os) (<[filename := old +:+ added column data old]> (files os))
          (opened os) None).
Proof.
  intros Hopen Hstat Hspace old. unfold Append, OpenFile. rewrite Hopen.
  set (file := mkFile filename true 0).
  set (os1 := mkOS (dirs os)
                (match files os !! filename with
                 | None => <[filename := EmptyString]> (files os)
                 | Some _ => files os
                 end) (filename :: opened os) (space os)).
  assert (I0 : Inv filename os1 old (Bufio.NewWriter file, os1)).
  { unfold Inv; cbn. repeat (split; [done|]).
    exists old. split; [|by rewrite app_nil_r].
    subst old. destruct (files os !! filename) as [c|] eqn:E; cbn.
    - by rewrite insert_id.
    - by rewrite insert_insert_eq. }
  assert (Hrun :
    (let '(result, st) :=
       appendBody env filename column data file (Bufio.NewWriter file, os1) in
     let '(_, (_, os2)) := Csv.Flush st in (result, Close file os2))
    = (outcome column data,
       mkOS (dirs os) (<[filename := old +:+ added column data old]> (files os))
            (opened os) None)).
  { destruct (appendBody_Inv env filename column data file _ _ _ _ I0
                eq_refl eq_refl Hstat) as [E I].
    destruct (appendBody _ _ _ _ _ _) as [result st]. cbn in E, I. subst result.
    destruct (Flush_Inv _ _ _ _ I) as (_ & I2 & Hb).
    unfold Csv.Flush. destruct (Bufio.Flush st) as [fe [b2 os2]].
    cbn in I2, Hb.
    destruct I2 as (_ & _ & _ & Hs2 & Hd2 & Ho2 & c & Hf2 & Hc2).
    cbn in *. rewrite Hb, app_nil_r in Hc2. subst c.
    f_equal. unfold Close. cbn. rewrite Hs2, Hd2, Hf2, Ho2.
    cbn [removeFirst]. rewrite String.eqb_refl.
    f_equal. destruct (files os !! filename); [done|].
    by rewrite insert_insert_eq. }
  destruct (files os !! filename); cbn [O_CREATE O_APPEND O_TRUNC appendFlags];
    exact Hrun.
Qed.

End NoFault.

(** ** The writer on any device: files only grow

    [Ext fname os0 st] holds of a writer state when the descriptor
    appends to [fname] and the state differs from [os0] at most in bytes
    added at the end of [fname]. *)

Section Extends.

Import Bufio.

Definition Ext (fname : string) (os0 : OS) (st : Bufio.state) : Prop :=
  name (wr (fst st)) = fname
  /\ appendMode (wr (fst st)) = true
  /\ dirs (snd st) = dirs os0
  /\ opened (snd st) = opened os0
  /\ exists x,
       files (snd st)
       = <[fname := default EmptyString (files os0 !! fname) +:+ x]> (files os0).

Definition keeps (op : io) : Prop :=
  forall fname os0 st, Ext fname os0 st -> Ext fname os0 (snd (op st)).

Lemma FileWrite_extends (f : File) (p : string) (os : OS) :
  appendMode f = true ->
  exists q,
    name (snd (fst (FileWrite f p os))) = name f
    /\ appendMode (snd (fst (FileWrite f p os))) = true
    /\ dirs (snd (FileWrite f p os)) = dirs os
    /\ opened (snd (FileWrite f p os)) = opened os
    /\ files (snd (FileWrite f p os))
       = <[name f := content f os +:+ q]> (files os).
Proof.
  intros Ha. unfold FileWrite. rewrite Ha.
  destruct (space os) as [n|]; [destruct (String.length p <=? n)%nat|];
    cbn; eexists; repeat (split; [done|]);
    rewrite take_length, drop_past, app_nil_r by lia; reflexivity.
Qed.

(** A file write under [Ext], whatever the writer does with the count
    and the error. *)
Lemma Ext_FileWrite fname os0 b os p :
  Ext fname os0 (b, os) ->
  forall buf' err',
    Ext fname os0
      (mkWriter (snd (fst (FileWrite (wr b) p os))) buf' err',
       snd (FileWrite (wr b) p os)).
Proof.
  intros (Hn & Ha & Hd & Ho & x & Hf) buf' err'. cbn in *.
  destruct (FileWrite_extends (wr b) p os Ha) as (q & Hn' & Ha' & Hd' & Ho' & Hf').
  unfold Ext; cbn. rewrite Hn', Ha', Hd', Ho', Hf'.
  repeat (split; [done|]).
  exists (x +:+ q). subst fname.
  rewrite (content_insert _ _ os os0 Hf), Hf.
  by rewrite insert_insert_eq, app_assoc.
Qed.

Lemma Ext_buffer fname os0 b os buf' err' :
  Ext fname os0 (b, os) -> Ext fname os0 (mkWriter (wr b) buf' err', os).
Proof. by intros (Hn & Ha & Hd & Ho & Hx). Qed.

Lemma keeps_ok : keeps ok.
Proof. by intros fname os0 st H. Qed.

Lemma keeps_andThen (a k : io) : keeps a -> keeps k -> keeps (a ;;; k).
Proof.
  intros Ha Hk fname os0 st H. unfold andThen.
  specialize (Ha _ _ _ H). destruct (a st) as [[e|] st1]; [done|].
  by apply Hk.
Qed.

Lemma keeps_Flush : keeps Flush.
Proof.
  intros fname os0 [b os] H. unfold Flush.
  destruct (err b); [done|]. destruct (len (buf b) =? 0); [done|].
  pose proof (Ext_FileWrite _ _ _ _ (buf b) H) as HW.
  destruct (FileWrite (wr b) (buf b) os) as [[[n e] f] os']. cbn in HW.
  destruct e; cbn; apply HW.
Qed.

Lemma keeps_copyRest (s : string) : keeps (copyRest s).
Proof.
  intros fname os0 [b os] H. unfold copyRest.
  destruct (err b); [done|]. cbn. by eapply Ext_buffer.
Qed.

Lemma keeps_WriteByte (c : ascii) : keeps (WriteByte c).
Proof.
  intros fname os0 [b os] H. unfold WriteByte.
  destruct (err b); [done|].
  destruct (Available b <=? 0).
  - pose proof (keeps_Flush _ _ _ H) as HF.
    destruct (Flush (b, os)) as [[e|] [b1 os1]]; cbn in *; [done|].
    by eapply Ext_buffer.
  - cbn. by eapply Ext_buffer.
Qed.

Lemma Ext_through fname os0 s st :
  Ext fname os0 st ->
  Ext fname os0 (snd (let '(s1, st1) := writeThrough s st in copyRest s1 st1)).
Proof.
  destruct st as [b os]. intros H. unfold writeThrough.
  pose proof (Ext_FileWrite _ _ _ _ s H) as HW.
  destruct (FileWrite (wr b) s os) as [[[n e] f] os']. cbn in HW.
  apply keeps_copyRest, HW.
Qed.

Lemma keeps_WriteString (s : string) : keeps (WriteString s).
Proof.
  intros fname os0 [b os] H. unfold WriteString.
  destruct ((Available b <? len s) && bool_decide (err b = None));
    [|by apply keeps_copyRest].
  destruct (len (buf b) =? 0); [by apply Ext_through|].
  set (n := Z.to_nat (Available b)).
  assert (H0 : Ext fname os0 (mkWriter (wr b) (buf b +:+ take n s) (err b), os))
    by (by eapply Ext_buffer).
  pose proof (keeps_Flush _ _ _ H0) as HF.
  destruct (Flush _) as [fe [b1 os1]]. cbn in HF.
  destruct ((Available b1 <? len (drop n s)) && bool_decide (err b1 = None));
    [by apply Ext_through | by apply keeps_copyRest].
Qed.

Lemma keeps_writeQuoted (field seg : string) : keeps (Csv.writeQuoted seg field).
Proof.
  revert seg. induction field as [|c rest IH]; intros seg; cbn [Csv.writeQuoted].
  - destruct (String.eqb seg EmptyString); [apply keeps_ok | apply keeps_WriteString].
  - destruct (Csv.stop c); [|apply IH].
    apply keeps_andThen; [apply keeps_WriteString|].
    apply keeps_andThen; [|apply IH].
    destruct (Ascii.eqb c dquote); [apply keeps_WriteString | apply keeps_WriteByte].
Qed.

Lemma keeps_writeFields (record : list string) (sep : bool) :
  keeps (Csv.writeFields sep record).
Proof.
  revert sep. induction record as [|f rest IH]; intros sep;
    cbn [Csv.writeFields]; [apply keeps_ok|].
  apply keeps_andThen; [destruct sep; [apply keeps_WriteByte | apply keeps_ok]|].
  apply keeps_andThen; [|apply IH].
  unfold Csv.writeField. destruct (negb _); [apply keeps_WriteString|].
  apply keeps_andThen; [apply keeps_WriteByte|].
  apply keeps_andThen; [apply keeps_writeQuoted | apply keeps_WriteByte].
Qed.

Lemma keeps_Write (record : list string) : keeps (Csv.Write record).
Proof.
  apply keeps_andThen; [apply keeps_writeFields | apply keeps_WriteByte].
Qed.

Lemma appendBody_Ext env filename column data file fname os0 st :
  Ext fname os0 st ->
  Ext fname os0 (snd (appendBody env filename column data file st)).
Proof.
  intros H. unfold appendBody.
  destruct (StatSize _ _ _) as [size|e]; [|done].
  assert (H1 : Ext fname os0
                 (snd (if size =? 0 then Csv.Write column st else (None, st)))).
  { destruct (size =? 0); [by apply keeps_Write | done]. }
  destruct (if size =? 0 then Csv.Write column st else (None, st))
    as [[e|] st1]; cbn in H1; [done|].
  destruct (Marshal data) as [json|]; [|done].
  destruct (Unmarshal json) as [dataMap|]; [|done].
  pose proof (keeps_Write (map (field dataMap) column) _ _ _ H1) as H2.
  destruct (Csv.Write _ st1) as [[e|] st2]; cbn in H2; [done|].
  pose proof (keeps_copyRest EmptyString _ _ _ H2) as H3.
  unfold Csv.Error, WriteNil.
  destruct (copyRest EmptyString st2) as [[e|] st3]; cbn in H3; [|done].
  by destruct (bool_decide (e = EOF)).
Qed.

(** Whatever fails, [Append] leaves the directories and the open
    descriptors as they were, leaves every other file alone, and keeps
    the old bytes of its file in front of anything it adds. *)
Lemma Append_extends env filename column data os :
  let os' := snd (Append env filename column data os) in
  dirs os' = dirs os
  /\ opened os' = opened os
  /\ (forall p, p <> filename -> files os' !! p = files os !! p)
  /\ (forall c, files os !! filename = Some c ->
        exists x, files os' !! filename = Some (c +:+ x)).
Proof.
  unfold Append, OpenFile.
  destruct (openErr (faults env)); [cbn; split_and!; eauto using app_nil_r|].
  - intros c Hc. exists EmptyString. by rewrite app_nil_r.
  - set (file := mkFile filename true 0).
    set (os1 := mkOS (dirs os)
                  (match files os !! filename with
                   | None => <[filename := EmptyString]> (files os)
                   | Some _ => files os
                   end) (filename :: opened os) (space os)).
    assert (E0 : Ext filename os1 (NewWriter file, os1)).
    { unfold Ext; cbn. repeat (split; [done|]). exists EmptyString.
      rewrite app_nil_r.
      destruct (files os !! filename) as [c|] eqn:E; cbn.
      - by rewrite E, insert_id.
      - by rewrite lookup_insert_eq, insert_insert_eq. }
    assert (Hrun :
      let os' :=
        snd (let '(result, st) :=
               appendBody env filename column data file (NewWriter file, os1) in
             let '(_, (_, os2)) := Csv.Flush st in (result, Close file os2)) in
      dirs os' = dirs os
      /\ opened os' = opened os
      /\ (forall p, p <> filename -> files os' !! p = files os !! p)
      /\ (forall c, files os !! filename = Some c ->
            exists x, files os' !! filename = Some (c +:+ x))).
    { pose proof (appendBody_Ext env filename column data file _ _ _ E0) as E1.
      destruct (appendBody _ _ _ _ _ _) as [result st]. cbn in E1.
      pose proof (keeps_Flush _ _ _ E1) as E2.
      unfold Csv.Flush. destruct (Flush st) as [fe [b2 os2]].
      destruct E2 as (_ & _ & Hd & Ho & x & Hf). cbn in *.
      rewrite Hd, Ho, Hf. cbn [removeFirst]. rewrite String.eqb_refl.
      split_and!; [done|done| |].
      - intros p Hp. rewrite lookup_insert_ne by done.
        destruct (files os !! filename); [done|]. by rewrite lookup_insert_ne.
      - intros c Hc. rewrite lookup_insert_eq, Hc. cbn. rewrite Hc. cbn. eauto. }
    destruct (files os !! filename); cbn [O_CREATE O_APPEND O_TRUNC appendFlags];
      exact Hrun.
Qed.

End Extends.

(** ** The bytes in the file are not read

    Two runs of the writer that start from files with different bytes
    do the same thing: [Sim] relates two writer states that agree on
    everything but the bytes their files held at the start, [c1] and
    [c2], to which both have added the same bytes. *)

Section SizeOnly.

Import Bufio.

Definition Sim (fname c1 c2 : string) (st1 st2 : Bufio.state) : Prop :=
  (name (wr (fst st1)) = fname /\ name (wr (fst st2)) = fname)
  /\ (appendMode (wr (fst st1)) = true /\ appendMode (wr (fst st2)) = true)
  /\ buf (fst st1) = buf (fst st2)
  /\ err (fst st1) = err (fst st2)
  /\ space (snd st1) = space (snd st2)
  /\ exists x,
       content (wr (fst st1)) (snd st1) = c1 +:+ x
       /\ content (wr (fst st2)) (snd st2) = c2 +:+ x.

Definition agree (op : io) : Prop :=
  forall fname c1 c2 st1 st2,
    Sim fname c1 c2 st1 st2 ->
    fst (op st1) = fst (op st2)
    /\ Sim fname c1 c2 (snd (op st1)) (snd (op st2)).

Lemma content_put (f f' : File) (v : string) (os os' : OS) :
  name f' = name f ->
  files os' = <[name f := v]> (files os) ->
  content f' os' = v.
Proof. intros Hn Hf. unfold content. by rewrite Hn, Hf, lookup_insert_eq. Qed.

Lemma FileWrite_agree fname c1 c2 b1 os1 b2 os2 p :
  Sim fname c1 c2 (b1, os1) (b2, os2) ->
  fst (fst (fst (FileWrite (wr b1) p os1)))
  = fst (fst (fst (FileWrite (wr b2) p os2)))
  /\ snd (fst (fst (FileWrite (wr b1) p os1)))
     = snd (fst (fst (FileWrite (wr b2) p os2)))
  /\ forall buf' err',
       Sim fname c1 c2
         (mkWriter (snd (fst (FileWrite (wr b1) p os1))) buf' err',
          snd (FileWrite (wr b1) p os1))
         (mkWriter (snd (fst (FileWrite (wr b2) p os2))) buf' err',
          snd (FileWrite (wr b2) p os2)).
Proof.
  intros ((Hn1 & Hn2) & (Ha1 & Ha2) & Hb & He & Hs & x & Hx1 & Hx2).
  cbn in *. unfold FileWrite. rewrite Ha1, Ha2, Hs.
  destruct (space os2) as [n|]; [destruct (String.length p <=? n)%nat|];
    cbn; (split; [done|]); (split; [done|]); intros buf' err';
    unfold Sim; cbn; rewrite ?Hs; repeat (split; [done|]);
    eexists; (split; (erewrite content_put; [|done|reflexivity]));
    rewrite take_length, drop_past, app_nil_r by lia;
    rewrite ?Hx1, ?Hx2, app_assoc; reflexivity.
Qed.

Lemma Sim_buffer fname c1 c2 b1 os1 b2 os2 buf' err' :
  Sim fname c1 c2 (b1, os1) (b2, os2) ->
  Sim fname c1 c2 (mkWriter (wr b1) buf' err', os1) (mkWriter (wr b2) buf' err', os2).
Proof. intros (Hn & Ha & Hb & He & Hs & Hx). by unfold Sim. Qed.

Lemma agree_ok : agree ok.
Proof. by intros fname c1 c2 st1 st2 H. Qed.

Lemma agree_andThen (a k : io) : agree a -> agree k -> agree (a ;;; k).
Proof.
  intros Ha Hk fname c1 c2 st1 st2 H. unfold andThen.
  destruct (Ha _ _ _ _ _ H) as [E S].
  destruct (a st1) as [[e1|] st1'], (a st2) as [[e2|] st2'];
    cbn in E, S; try discriminate; [done|].
  by apply Hk.
Qed.

Lemma agree_Flush : agree Flush.
Proof.
  intros fname c1 c2 [b1 os1] [b2 os2] H. unfold Flush.
  pose proof H as (_ & _ & Hb & He & _). cbn in Hb, He. rewrite Hb, He.
  destruct (err b2); [done|]. destruct (len (buf b2) =? 0); [done|].
  destruct (FileWrite_agree _ _ _ _ _ _ _ (buf b2) H) as (En & Ee & S).
  destruct (FileWrite (wr b1) (buf b2) os1) as [[[n1 e1] f1] o1],
           (FileWrite (wr b2) (buf b2) os2) as [[[n2 e2] f2] o2].
  cbn in En, Ee, S. subst n2 e2.
  destruct e1; cbn; (split; [done|]); apply S.
Qed.

Lemma agree_copyRest (s : string) : agree (copyRest s).
Proof.
  intros fname c1 c2 [b1 os1] [b2 os2] H. unfold copyRest.
  pose proof H as (_ & _ & Hb & He & _). cbn in Hb, He. rewrite Hb, He.
  destruct (err b2); [done|]. cbn. split; [done|]. by apply Sim_buffer.
Qed.

Lemma agree_WriteByte (c : ascii) : agree (WriteByte c).
Proof.
  intros fname c1 c2 [b1 os1] [b2 os2] H. unfold WriteByte, Available.
  pose proof H as (_ & _ & Hb & He & _). cbn in Hb, He. rewrite Hb, He.
  destruct (err b2) eqn:He2; [done|].
  destruct (defaultBufSize - len (buf b2) <=? 0).
  - destruct (agree_Flush _ _ _ _ _ H) as [E S].
    destruct (Flush (b1, os1)) as [[e1|] [b1' os1']],
             (Flush (b2, os2)) as [[e2|] [b2' os2']];
      cbn in E, S; try discriminate.
    + pose proof S as (_ & _ & _ & He' & _). cbn in He'. cbn. by rewrite He'.
    + pose proof S as (_ & _ & Hb' & He' & _). cbn in Hb', He'. cbn.
      split; [done|]. rewrite Hb', He'. by apply Sim_buffer.
  - cbn. split; [done|]. rewrite Hb, He, ?He2. by apply Sim_buffer.
Qed.

Lemma agree_through (s : string) fname c1 c2 st1 st2 :
  Sim fname c1 c2 st1 st2 ->
  fst (let '(s1, st1') := writeThrough s st1 in copyRest s1 st1')
  = fst (let '(s1, st2') := writeThrough s st2 in copyRest s1 st2')
  /\ Sim fname c1 c2
       (snd (let '(s1, st1') := writeThrough s st1 in copyRest s1 st1'))
       (snd (let '(s1, st2') := writeThrough s st2 in copyRest s1 st2')).
Proof.
  destruct st1 as [b1 os1], st2 as [b2 os2]. intros H. unfold writeThrough.
  pose proof H as (_ & _ & Hb & _). cbn in Hb.
  destruct (FileWrite_agree _ _ _ _ _ _ _ s H) as (En & Ee & S).
  destruct (FileWrite (wr b1) s os1) as [[[n1 e1] f1] o1],
           (FileWrite (wr b2) s os2) as [[[n2 e2] f2] o2].
  cbn in En, Ee, S. subst n2 e2. rewrite Hb.
  apply agree_copyRest, S.
Qed.

Lemma agree_WriteString (s : string) : agree (WriteString s).
Proof.
  intros fname c1 c2 [b1 os1] [b2 os2] H. unfold WriteString, Available.
  pose proof H as (_ & _ & Hb & He & _). cbn in Hb, He. rewrite Hb, He.
  destruct ((defaultBufSize - len (buf b2) <? len s)
            && bool_decide (err b2 = None));
    [|by apply agree_copyRest].
  destruct (len (buf b2) =? 0); [by apply agree_through|].
  set (n := Z.to_nat (defaultBufSize - len (buf b2))).
  assert (H0 : Sim fname c1 c2
                 (mkWriter (wr b1) (buf b2 +:+ take n s) (err b2), os1)
                 (mkWriter (wr b2) (buf b2 +:+ take n s) (err b2), os2))
    by (by apply Sim_buffer).
  destruct (agree_Flush _ _ _ _ _ H0) as [_ S].
  destruct (Flush (mkWriter (wr b1) _ _, os1)) as [fe1 [b1' os1']],
           (Flush (mkWriter (wr b2) _ _, os2)) as [fe2 [b2' os2']].
  cbn in S. pose proof S as (_ & _ & Hb' & He' & _). cbn in Hb', He'.
  rewrite Hb', He'.
  destruct ((defaultBufSize - len (buf b2') <? len (drop n s))
            && bool_decide (err b2' = None));
    [by apply agree_through | by apply agree_copyRest].
Qed.

Lemma agree_writeQuoted (field seg : string) : agree (Csv.writeQuoted seg field).
Proof.
  revert seg. induction field as [|c rest IH]; intros seg; cbn [Csv.writeQuoted].
  - destruct (String.eqb seg EmptyString); [apply agree_ok | apply agree_WriteString].
  - destruct (Csv.stop c); [|apply IH].
    apply agree_andThen; [apply agree_WriteString|].
    apply agree_andThen; [|apply IH].
    destruct (Ascii.eqb c dquote); [apply agree_WriteString | apply agree_WriteByte].
Qed.

Lemma agree_writeFields (record : list string) (sep : bool) :
  agree (Csv.writeFields sep record).
Proof.
  revert sep. induction record as [|f rest IH]; intros sep;
    cbn [Csv.writeFields]; [apply agree_ok|].
  apply agree_andThen; [destruct sep; [apply agree_WriteByte | apply agree_ok]|].
  apply agree_andThen; [|apply IH].
  unfold Csv.writeField. destruct (negb _); [apply agree_WriteString|].
  apply agree_andThen; [apply agree_WriteByte|].
  apply agree_andThen; [apply agree_writeQuoted | apply agree_WriteByte].
Qed.

Lemma agree_Write (record : list string) : agree (Csv.Write record).
Proof.
  apply agree_andThen; [apply agree_writeFields | apply agree_WriteByte].
Qed.

(** Two runs of the body that see the same answer to "is the size
    zero" return the same result and add the same bytes. *)
Lemma appendBody_agree env filename column data file1 file2 fname c1 c2 st1 st2 :
  Sim fname c1 c2 st1 st2 ->
  content file1 (snd st1) = c1 ->
  content file2 (snd st2) = c2 ->
  (len c1 =? 0) = (len c2 =? 0) ->
  fst (appendBody env filename column data file1 st1)
  = fst (appendBody env filename column data file2 st2)
  /\ Sim fname c1 c2
       (snd (appendBody env filename column data file1 st1))
       (snd (appendBody env filename column data file2 st2)).
Proof.
  intros H Hc1 Hc2 Hz. unfold appendBody, StatSize.
  destruct (statErr (faults env)); [done|].
  rewrite Hc1, Hc2, Hz.
  assert (H1 :
    fst (if len c2 =? 0 then Csv.Write column st1 else (None, st1))
    = fst (if len c2 =? 0 then Csv.Write column st2 else (None, st2))
    /\ Sim fname c1 c2
         (snd (if len c2 =? 0 then Csv.Write column st1 else (None, st1)))
         (snd (if len c2 =? 0 then Csv.Write column st2 else (None, st2)))).
  { destruct (len c2 =? 0); [by apply agree_Write | done]. }
  destruct (if len c2 =? 0 then Csv.Write column st1 else (None, st1))
    as [[e1|] st1'],
    (if len c2 =? 0 then Csv.Write column st2 else (None, st2))
    as [[e2|] st2']; destruct H1 as [E1 S1]; cbn in E1, S1;
    try discriminate; [by injection E1 as ->|].
  destruct (Marshal data) as [json|]; [|done].
  destruct (Unmarshal json) as [dataMap|]; [|done].
  destruct (agree_Write (map (field dataMap) column) _ _ _ _ _ S1) as [E2 S2].
  destruct (Csv.Write _ st1') as [[e1|] st1''],
           (Csv.Write _ st2') as [[e2|] st2'']; cbn in E2, S2;
    try discriminate; [by injection E2 as ->|].
  destruct (agree_copyRest EmptyString _ _ _ _ _ S2) as [E3 S3].
  unfold Csv.Error, WriteNil.
  destruct (copyRest EmptyString st1'') as [[e1|] st1'''],
           (copyRest EmptyString st2'') as [[e2|] st2''']; cbn in E3, S3;
    try discriminate; [|done].
  injection E3 as ->. by destruct (bool_decide (e2 = EOF)).
Qed.

(** The bytes a file holds, none if it does not exist. *)
Definition bytesAt (os : OS) (p : string) : string :=
  default EmptyString (files os !! p).

Lemma OpenFile_content flt filename os file os1 :
  OpenFile flt filename appendFlags os = (inl file, os1) ->
  file = mkFile filename true 0
  /\ space os1 = space os
  /\ content file os1 = bytesAt os filename.
Proof.
  unfold OpenFile, bytesAt, content. destruct (openErr flt); [done|].
  destruct (files os !! filename) as [c|] eqn:E; cbn; intros [= <- <-]; cbn.
  - by rewrite E.
  - by rewrite lookup_insert_eq.
Qed.

Lemma OpenFile_error flt filename os1 os2 :
  match OpenFile flt filename appendFlags os1,
        OpenFile flt filename appendFlags os2 with
  | (inr e1, os1'), (inr e2, os2') => e1 = e2 /\ os1' = os1 /\ os2' = os2
  | (inl _, _), (inl _, _) => True
  | _, _ => False
  end.
Proof.
  unfold OpenFile. destruct (openErr flt); [done|].
  by destruct (files os1 !! filename), (files os2 !! filename).
Qed.

(** [Append] never reads the bytes of its file: started on two file
    systems with the same room whose target files are both empty or
    both not, it returns the same result and adds the same bytes. *)
Lemma Append_reads_size_only env filename column data os1 os2 :
  space os1 = space os2 ->
  (len (bytesAt os1 filename) =? 0) = (len (bytesAt os2 filename) =? 0) ->
  fst (Append env filename column data os1)
  = fst (Append env filename column data os2)
  /\ exists x,
       bytesAt (snd (Append env filename column data os1)) filename
       = bytesAt os1 filename +:+ x
       /\ bytesAt (snd (Append env filename column data os2)) filename
          = bytesAt os2 filename +:+ x.
Proof.
  intros Hs Hz. unfold Append.
  pose proof (OpenFile_error (faults env) filename os1 os2) as Herr.
  destruct (OpenFile (faults env) filename appendFlags os1) as [[f1|e1] o1] eqn:E1,
           (OpenFile (faults env) filename appendFlags os2) as [[f2|e2] o2] eqn:E2;
    try done.
  - destruct (OpenFile_content _ _ _ _ _ E1) as (-> & Hs1 & Hc1).
    destruct (OpenFile_content _ _ _ _ _ E2) as (-> & Hs2 & Hc2).
    set (file := mkFile filename true 0) in *.
    assert (S0 : Sim filename (bytesAt os1 filename) (bytesAt os2 filename)
                   (NewWriter file, o1) (NewWriter file, o2)).
    { unfold Sim; cbn. split_and!; try done; [congruence|].
      exists EmptyString. by rewrite !app_nil_r. }
    destruct (appendBody_agree env filename column data file file _ _ _ _ _
                S0 Hc1 Hc2 Hz) as [E S].
    destruct (appendBody _ _ _ _ file (NewWriter file, o1)) as [r1 st1],
             (appendBody _ _ _ _ file (NewWriter file, o2)) as [r2 st2].
    cbn in E, S. subst r2.
    destruct (agree_Flush _ _ _ _ _ S) as [_ S'].
    unfold Csv.Flush.
    destruct (Flush st1) as [fe1 [b1 o1']], (Flush st2) as [fe2 [b2 o2']].
    destruct S' as ((Hn1 & Hn2) & _ & _ & _ & _ & x & Hx1 & Hx2).
    cbn in *. split; [done|]. exists x.
    unfold content in Hx1, Hx2. rewrite Hn1 in Hx1. rewrite Hn2 in Hx2.
    done.
  - destruct Herr as (-> & -> & ->). cbn. split; [done|].
    exists EmptyString. by rewrite !app_nil_r.
Qed.

End SizeOnly.

(** ** [Record] *)

Section RecordFacts.

(** The record types the [switch] knows. *)
Definition supported (recordType : string) : Prop :=
  recordType = "daily" \/ recordType = "monthly" \/ recordType = "yearly".

Lemma periodSuffix_unsupported (recordType : string) (t : Time) :
  ~ supported recordType -> periodSuffix recordType t = None.
Proof.
  intros H. unfold periodSuffix, supported in *.
  destruct (String.eqb_spec recordType "daily"); [tauto|].
  destruct (String.eqb_spec recordType "monthly"); [tauto|].
  destruct (String.eqb_spec recordType "yearly"); [tauto|done].
Qed.

(** [path] is the file a call of [r] in [env] writes to: the zone
    resolves and the record type gives a suffix, which names [path]. *)
Definition targets (env : Env) (r : RecordToCSVService) (path : string) : Prop :=
  exists loc suffix,
    LoadLocation env "Asia/Jakarta" = Some loc
    /\ periodSuffix (RecordType r) (Now env loc) = Some suffix
    /\ path = filePath r suffix.

(** A call that nothing stops: the zone resolves, the record type is
    supported and names the file [path], the directory has a name, no
    file call fails and the device has room. *)
Definition ready (env : Env) (r : RecordToCSVService) (os : OS) (path : string)
  : Prop :=
  targets env r path
  /\ Dir r <> EmptyString
  /\ faults env = mkFaults None None None
  /\ space os = None.

(** The directories [MkdirAll] adds. *)
Definition made (dir : string) : gset string :=
  list_to_set (dir :: parents [] (Filepath.split dir)).

Lemma Record_no_fault env r data os path :
  ready env r os path ->
  let old := default EmptyString (files os !! path) in
  Record_ env r data os
  = (ErrAppend path <$> outcome (Column r) data,
     mkOS (dirs os ∪ made (Dir r))
          (<[path := old +:+ added (Column r) data old]> (files os))
          (opened os) None).
Proof.
  intros ((loc & suffix & Hloc & Hsuf & ->) & Hdir & Hflt & Hspace) old.
  unfold Record_. rewrite Hloc, Hsuf. unfold MkdirAll.
  destruct (String.eqb_spec (Dir r) EmptyString) as [|_]; [done|].
  rewrite Hflt. cbn [mkdirErr].
  rewrite Append_no_fault by (by rewrite ?Hflt).
  cbn [files dirs opened]. fold old.
  by destruct (outcome (Column r) data).
Qed.

(** C1.  In a call that nothing stops, the bytes added to the target
    file start with the header line, the configured columns in order,
    exactly when the file was empty when it was opened; a file that has
    bytes gets the data line alone, whatever its first line is.  The
    data line is missing when the payload has no mapping. *)
Theorem header_iff_file_empty env r data os path :
  ready env r os path ->
  let old := default EmptyString (files os !! path) in
  let line := match row (Column r) data with
              | inl l => l
              | inr _ => EmptyString
              end in
  (len old = 0 ->
     files (snd (Record_ env r data os)) !! path
     = Some (Csv.encode (Column r) +:+ line))
  /\ (len old <> 0 ->
     files (snd (Record_ env r data os)) !! path = Some (old +:+ line)).
Proof.
  intros Hready old line. rewrite (Record_no_fault _ _ _ _ _ Hready).
  cbn [snd files]. rewrite lookup_insert_eq. fold old.
  unfold added, header. fold line. split; intros H.
  - rewrite H. cbn. by rewrite (len_zero old) by (by rewrite H).
  - by destruct (Z.eqb_spec (len old) 0).
Qed.

Lemma fields_of_nil_map (column : list string) :
  map (field ∅) column = replicate (length column) EmptyString.
Proof.
  induction column as [|c l IH]; [reflexivity|].
  cbn [map length replicate]. rewrite IH. f_equal.
Qed.

(** C9.  A nil payload is not an error: in a call that nothing stops,
    [Record] returns [nil] and the line it adds has one empty field per
    column. *)
Theorem nil_payload_row env r os path :
  ready env r os path ->
  let old := default EmptyString (files os !! path) in
  fst (Record_ env r Nil os) = None
  /\ files (snd (Record_ env r Nil os)) !! path
     = Some (old +:+ header (Column r) old
             +:+ Csv.encode (replicate (length (Column r)) EmptyString)).
Proof.
  intros Hready old. rewrite (Record_no_fault _ _ _ _ _ Hready).
  cbn [fst snd files]. rewrite lookup_insert_eq. fold old.
  split; [reflexivity|].
  unfold added, row. cbn [Marshal Unmarshal].
  by rewrite fields_of_nil_map.
Qed.

(** The payload has no string-keyed mapping: [json.Marshal] rejects it,
    or its JSON form is neither an object nor [null]. *)
Definition unserializable (data : payload) : Prop :=
  match Marshal data with
  | None => True
  | Some json => Unmarshal json = None
  end.

(** C10.  When the payload of the first record of a period has no
    mapping, the call fails with the serialization error, and yet the
    file now exists and holds the header line and nothing else. *)
Theorem header_left_after_serialization_failure env r data os path :
  ready env r os path ->
  files os !! path = None ->
  unserializable data ->
  (fst (Record_ env r data os) = Some (ErrAppend path ErrMarshal)
   \/ fst (Record_ env r data os) = Some (ErrAppend path ErrUnmarshal))
  /\ files (snd (Record_ env r data os)) !! path = Some (Csv.encode (Column r)).
Proof.
  intros Hready Hnew Hdata. rewrite (Record_no_fault _ _ _ _ _ Hready).
  cbn [fst snd files]. rewrite lookup_insert_eq, Hnew. cbn [default].
  unfold outcome, added, row, header, unserializable in *.
  destruct (Marshal data) as [json|].
  - rewrite Hdata. cbn. split; [by right|]. by rewrite app_nil_r.
  - cbn. split; [by left|]. by rewrite app_nil_r.
Qed.

Lemma MkdirAll_files flt dir os :
  files (snd (MkdirAll flt dir os)) = files os
  /\ opened (snd (MkdirAll flt dir os)) = opened os
  /\ dirs os ⊆ dirs (snd (MkdirAll flt dir os)).
Proof.
  unfold MkdirAll. destruct (String.eqb dir EmptyString); [done|].
  destruct (mkdirErr flt); cbn; [done|]. split_and!; [done|done|set_solver].
Qed.

Lemma MkdirAll_result flt dir os1 os2 :
  fst (MkdirAll flt dir os1) = fst (MkdirAll flt dir os2)
  /\ space (snd (MkdirAll flt dir os1)) = space os1.
Proof.
  unfold MkdirAll. destruct (String.eqb dir EmptyString); [done|].
  by destruct (mkdirErr flt).
Qed.

(** Two file systems with the same room in which the same files are
    empty. *)
Definition sameSizesZero (os1 os2 : OS) : Prop :=
  space os1 = space os2
  /\ forall p, (len (bytesAt os1 p) =? 0) = (len (bytesAt os2 p) =? 0).

Lemma Record_reads_size_only env r data os1 os2 :
  sameSizesZero os1 os2 ->
  fst (Record_ env r data os1) = fst (Record_ env r data os2)
  /\ forall p, exists x,
       bytesAt (snd (Record_ env r data os1)) p = bytesAt os1 p +:+ x
       /\ bytesAt (snd (Record_ env r data os2)) p = bytesAt os2 p +:+ x.
Proof.
  intros [Hs Hz]. unfold Record_.
  assert (Hnone : forall p, exists x,
            bytesAt os1 p = bytesAt os1 p +:+ x
            /\ bytesAt os2 p = bytesAt os2 p +:+ x).
  { intros p. exists EmptyString. by rewrite !app_nil_r. }
  destruct (LoadLocation env "Asia/Jakarta") as [loc|]; [|done].
  destruct (periodSuffix _ _) as [suffix|]; [|done].
  destruct (MkdirAll_result (faults env) (Dir r) os1 os2) as [Em Hs1].
  destruct (MkdirAll_result (faults env) (Dir r) os2 os1) as [_ Hs2].
  destruct (MkdirAll_files (faults env) (Dir r) os1) as (Hf1 & _ & _).
  destruct (MkdirAll_files (faults env) (Dir r) os2) as (Hf2 & _ & _).
  destruct (MkdirAll _ _ os1) as [[e1|] o1], (MkdirAll _ _ os2) as [[e2|] o2];
    cbn in Em, Hs1, Hs2, Hf1, Hf2; try discriminate.
  { injection Em as ->. cbn. split; [done|].
    unfold bytesAt. rewrite Hf1, Hf2. apply Hnone. }
  set (path := filePath r suffix).
  assert (B1 : forall p, bytesAt o1 p = bytesAt os1 p)
    by (intros p; unfold bytesAt; by rewrite Hf1).
  assert (B2 : forall p, bytesAt o2 p = bytesAt os2 p)
    by (intros p; unfold bytesAt; by rewrite Hf2).
  destruct (Append_reads_size_only env path (Column r) data o1 o2)
    as (E & x & Hx1 & Hx2); [congruence | by rewrite B1, B2 |].
  destruct (Append_extends env path (Column r) data o1) as (_ & _ & Ho1 & _).
  destruct (Append_extends env path (Column r) data o2) as (_ & _ & Ho2 & _).
  assert (Hgoal :
    forall p, exists x,
      bytesAt (snd (Append env path (Column r) data o1)) p = bytesAt os1 p +:+ x
      /\ bytesAt (snd (Append env path (Column r) data o2)) p = bytesAt os2 p +:+ x).
  { intros p. destruct (decide (p = path)) as [->|Hne].
    - exists x. by rewrite <- B1, <- B2.
    - exists EmptyString. unfold bytesAt.
      rewrite Ho1, Ho2, Hf1, Hf2 by done. by rewrite !app_nil_r. }
  destruct (Append _ _ _ _ o1) as [[a1|] o1'], (Append _ _ _ _ o2) as [[a2|] o2'];
    cbn in E; try discriminate; cbn; [by injection E as ->|done].
Qed.

(** Whatever fails, [Record] only adds bytes at the end of its target
    file. *)
Lemma Record_extends env r data os :
  let os' := snd (Record_ env r data os) in
  (forall p c, files os !! p = Some c ->
     exists x, files os' !! p = Some (c +:+ x))
  /\ (forall p, ~ targets env r p -> files os' !! p = files os !! p)
  /\ dirs os ⊆ dirs os'
  /\ opened os' = opened os.
Proof.
  cbn zeta.
  assert (Hsame : forall p c, files os !! p = Some c ->
                    exists x, files os !! p = Some (c +:+ x)).
  { intros p c H. exists EmptyString. by rewrite app_nil_r. }
  unfold Record_, targets.
  destruct (LoadLocation env "Asia/Jakarta") as [loc|]; [|by cbn].
  destruct (periodSuffix _ _) as [suffix|] eqn:Hsuffix; [|by cbn].
  destruct (MkdirAll_files (faults env) (Dir r) os) as (Hf & Ho & Hd).
  destruct (MkdirAll _ _ os) as [[e|] os1]; cbn in Hf, Ho, Hd.
  { cbn. rewrite Hf, Ho. done. }
  destruct (Append_extends env (filePath r suffix) (Column r) data os1)
    as (Hd' & Ho' & Hother & Hsamefile).
  assert (Hgoal :
    let os2 := snd (Append env (filePath r suffix) (Column r) data os1) in
    (forall p c, files os !! p = Some c ->
       exists x, files os2 !! p = Some (c +:+ x))
    /\ (forall p,
          ~ (exists loc' suffix',
               Some loc = Some loc'
               /\ periodSuffix (RecordType r) (Now env loc') = Some suffix'
               /\ p = filePath r suffix') ->
          files os2 !! p = files os !! p)
    /\ dirs os ⊆ dirs os2 /\ opened os2 = opened os).
  { cbn zeta. split_and!.
    - intros p c Hc. destruct (decide (p = filePath r suffix)) as [->|Hne].
      + apply Hsamefile. by rewrite Hf.
      + rewrite Hother, Hf by done. by apply Hsame.
    - intros p Hp. rewrite Hother, Hf; [done|].
      intros ->. apply Hp. by exists loc, suffix.
    - by rewrite Hd'.
    - by rewrite Ho', Ho. }
  by destruct (Append _ _ _ _ os1) as [[e|] os2].
Qed.

(** C7.  Every call is append-only, whatever fails on the way: the file
    is opened with [O_APPEND] and without [O_TRUNC]; each file that
    existed keeps its bytes as the front of what it holds afterwards; a
    file other than the target is not created and not changed; no
    directory is removed and no descriptor is left open; and the bytes
    of the files are not read beyond the size check, for on any other
    file system with the same room and the same empty files the call
    returns the same result and adds the same bytes. *)
Theorem record_is_append_only env r data os :
  let os' := snd (Record_ env r data os) in
  O_APPEND appendFlags = true
  /\ O_TRUNC appendFlags = false
  /\ (forall p c, files os !! p = Some c ->
        exists x, files os' !! p = Some (c +:+ x))
  /\ (forall p, ~ targets env r p -> files os' !! p = files os !! p)
  /\ dirs os ⊆ dirs os'
  /\ opened os' = opened os
  /\ (forall os2, sameSizesZero os os2 ->
        fst (Record_ env r data os) = fst (Record_ env r data os2)
        /\ forall p, exists x,
             bytesAt os' p = bytesAt os p +:+ x
             /\ bytesAt (snd (Record_ env r data os2)) p = bytesAt os2 p +:+ x).
Proof.
  cbn zeta.
  destruct (Record_extends env r data os) as (Hfront & Hother & Hdirs & Hopen).
  split_and!; try done.
  intros os2 H. by apply Record_reads_size_only.
Qed.

(** C4 as stated does not hold: with a record type outside the three
    and no zone database, the error is the one of the time zone. *)
Definition noZones : Env :=
  mkEnv (fun _ => None) (fun _ => mkTime 2025 8 26 0 0 0 238)
        (mkFaults None None None).

Definition emptyOS : OS := mkOS ∅ ∅ [] None.

Lemma unsupported_type_other_error :
  let r := NewRecordToCSV "files/record" "booking_record" ["id"] "weekly" in
  ~ supported (RecordType r)
  /\ fst (Record_ noZones r Nil emptyOS) = Some ErrLoadLocation
  /\ fst (Record_ noZones r Nil emptyOS) <> Some (ErrRecordType "weekly")
  /\ message ErrLoadLocation <> message (ErrRecordType "weekly").
Proof.
  cbn. split_and!; try done.
  unfold supported. intros [H|[H|H]]; discriminate.
Qed.

(** C4, amended.  With a record type outside the three, every call
    fails and leaves the file system as it was: no directory and no
    file is made, opened or written.  The error is "unsupported record
    type" whenever the time zone resolves, and the time zone error
    otherwise. *)
Theorem unsupported_record_type env r data os :
  ~ supported (RecordType r) ->
  snd (Record_ env r data os) = os
  /\ fst (Record_ env r data os)
     = match LoadLocation env "Asia/Jakarta" with
       | Some _ => Some (ErrRecordType (RecordType r))
       | None => Some ErrLoadLocation
       end
  /\ message (ErrRecordType (RecordType r)) = "unsupported record type: ".
Proof.
  intros H. unfold Record_.
  destruct (LoadLocation env "Asia/Jakarta") as [loc|]; [|done].
  by rewrite periodSuffix_unsupported.
Qed.

Definition weekly : RecordToCSVService :=
  NewRecordToCSV "files/record" "booking_record" ["id"] "weekly".

Lemma unsupported_record_type_witness :
  ~ supported (RecordType weekly)
  /\ snd (Record_ noZones weekly Nil emptyOS) = emptyOS.
Proof.
  assert (H : ~ supported (RecordType weekly)).
  { unfold supported. cbn. intros [H|[H|H]]; discriminate. }
  split; [exact H|].
  exact (proj1 (unsupported_record_type noZones weekly Nil emptyOS H)).
Defined.

End RecordFacts.

(** ** Reading a written line back *)

Section RoundTrip.

Import Csv.
















End RoundTrip.

(** ** Integral numbers below a million *)

Section Integral.

Definition zeros (k : nat) : string := repeatByte k "0"%char.

Lemma srev_acc (s acc : string) : srev acc s = srev EmptyString s +:+ acc.
Proof.
  revert acc. induction s as [|c s IH]; intros acc; [reflexivity|].
  cbn [srev]. rewrite (IH (String c acc)), (IH (String c EmptyString)).
  by rewrite app_assoc.
Qed.

Lemma srev_app (a b : string) :
  srev EmptyString (a +:+ b) = srev EmptyString b +:+ srev EmptyString a.
Proof.
  induction a as [|c a IH]; [by rewrite app_nil_l, app_nil_r|].
  rewrite app_cons. cbn [srev].
  rewrite (srev_acc (a +:+ b)), (srev_acc a), IH. by rewrite app_assoc.
Qed.

Lemma srev_involutive (s : string) : srev EmptyString (srev EmptyString s) = s.
Proof.
  induction s as [|c s IH]; [reflexivity|].
  cbn [srev]. rewrite (srev_acc s (String c EmptyString)), srev_app, IH.
  reflexivity.
Qed.

Lemma srev_length (s : string) :
  String.length (srev EmptyString s) = String.length s.
Proof.
  induction s as [|c s IH]; [reflexivity|].
  cbn [srev]. rewrite (srev_acc s (String c EmptyString)), length_app, IH.
  cbn. lia.
Qed.

Lemma zeros_snoc (k : nat) : zeros k +:+ str1 "0"%char = zeros (S k).
Proof.
  induction k as [|k IH]; [reflexivity|].
  unfold zeros in *. cbn [repeatByte]. by rewrite app_cons, IH.
Qed.

Lemma srev_zeros (k : nat) : srev EmptyString (zeros k) = zeros k.
Proof.
  induction k as [|k IH]; [reflexivity|].
  unfold zeros in *. cbn [repeatByte srev].
  rewrite (srev_acc _ (String "0"%char EmptyString)), IH.
  apply zeros_snoc.
Qed.

(** Stripping removes a run of zeros from the front and nothing else. *)
Lemma stripZeros_front (r : string) :
  exists k,
    r = zeros k +:+ stripZeros r
    /\ (k + String.length (stripZeros r) = String.length r)%nat.
Proof.
  induction r as [|c r (k & IH & Hlen)]; [by exists 0%nat|].
  cbn [stripZeros]. destruct (Ascii.eqb_spec c "0"%char) as [->|_].
  - exists (S k). split; [|cbn; lia].
    unfold zeros. cbn [repeatByte]. rewrite app_cons. by f_equal.
  - by exists 0%nat.
Qed.

(** The shortest digits followed by the zeros they dropped are the
    decimal form. *)
Lemma shortest_digits (ds : string) :
  let short := srev EmptyString (stripZeros (srev EmptyString ds)) in
  ds = short +:+ zeros (String.length ds - String.length short)
  /\ (String.length short <= String.length ds)%nat.
Proof.
  cbn zeta.
  destruct (stripZeros_front (srev EmptyString ds)) as (k & Hr & Hlen).
  rewrite srev_length in Hlen.
  rewrite srev_length. split; [|lia].
  replace (String.length ds - String.length (stripZeros (srev EmptyString ds)))%nat
    with k by lia.
  rewrite <- (srev_involutive ds) at 1. rewrite Hr at 1.
  by rewrite srev_app, srev_zeros.
Qed.

Lemma decimal_length_ge (fuel : nat) (u : Z) (acc : string) :
  (String.length acc <= String.length (decimal fuel u acc))%nat.
Proof.
  revert u acc. induction fuel as [|fuel IH]; intros u acc; cbn [decimal]; [lia|].
  destruct (u <=? 0); [lia|].
  specialize (IH (u / 10) (String (digit (u mod 10)) acc)). cbn in IH. lia.
Qed.

Lemma decimal_length_le (k fuel : nat) (u : Z) (acc : string) :
  u < 10 ^ Z.of_nat k -> (k <= fuel)%nat ->
  (String.length (decimal fuel u acc) <= k + String.length acc)%nat.
Proof.
  revert fuel u acc. induction k as [|k IH]; intros fuel u acc Hu Hk.
  - destruct fuel; cbn [decimal]; [lia|].
    destruct (Z.leb_spec u 0); [lia|]. cbn in Hu. lia.
  - destruct fuel as [|fuel]; [lia|]. cbn [decimal].
    destruct (Z.leb_spec u 0); [lia|].
    assert (Hdiv : u / 10 < 10 ^ Z.of_nat k).
    { apply Z.div_lt_upper_bound; [lia|].
      rewrite Nat2Z.inj_succ, Z.pow_succ_r in Hu by lia. lia. }
    specialize (IH fuel (u / 10) (String (digit (u mod 10)) acc) Hdiv).
    cbn in IH. lia.
Qed.

Lemma decimal_positive (u : Z) :
  0 < u < 1000000 ->
  (1 <= String.length (decimal 20 u EmptyString) <= 6)%nat.
Proof.
  intros Hu. split.
  - change 20%nat with (S 19). cbn [decimal].
    destruct (Z.leb_spec u 0); [lia|].
    pose proof (decimal_length_ge 19 (u / 10) (str1 (digit (u mod 10)))) as Hge.
    cbn in Hge. exact Hge.
  - pose proof (decimal_length_le 6 20 u EmptyString) as Hle.
    cbn in Hle. apply Hle; lia.
Qed.

(** [%v] on a number whose shortest digits come from a decimal form of
    one to six digits: the decimal form itself, after the sign. *)
Lemma formatFloat_plain (neg : bool) (ds : string) :
  (1 <= String.length ds <= 6)%nat ->
  formatFloat
    (mkFloat neg (srev EmptyString (stripZeros (srev EmptyString ds))) (len ds))
  = (if neg then "-" else EmptyString) +:+ ds.
Proof.
  intros Hlen.
  destruct (shortest_digits ds) as [Hds Hshort]. cbn zeta in Hds, Hshort.
  set (short := srev EmptyString (stripZeros (srev EmptyString ds))) in *.
  unfold formatFloat, fmtF, nd, digitsBetween. cbn [fneg d dp].
  assert (Hl : len ds = Z.of_nat (String.length ds)) by reflexivity.
  assert (Hs : len short = Z.of_nat (String.length short)) by reflexivity.
  destruct (Z.ltb_spec (len ds - 1) (-4)); [lia|].
  destruct (Z.leb_spec 6 (len ds - 1)); [lia|]. cbn [orb].
  destruct (Z.ltb_spec (len ds) (len short)); [lia|].
  rewrite Z.max_r by lia. cbn [Z.ltb Z.compare].
  destruct (Z.ltb_spec 0 (len ds)); [|lia].
  rewrite Z.min_l by lia. rewrite Z.sub_0_r, Hs, Nat2Z.id. cbn [Z.to_nat drop].
  rewrite take_length, app_nil_r.
  replace (Z.to_nat (len ds - Z.of_nat (String.length short)))
    with (String.length ds - String.length short)%nat by lia.
  fold (zeros (String.length ds - String.length short)).
  change (drop (Z.to_nat 0) short) with short.
  by rewrite <- Hds.
Qed.

Lemma appendInt_plain (n : Z) :
  n <> 0 ->
  appendInt n 0
  = (if n <? 0 then "-" else EmptyString) +:+ decimal 20 (Z.abs n) EmptyString.
Proof.
  intros Hn. unfold appendInt.
  destruct (Z.eqb_spec (Z.abs n) 0); [lia|].
  replace (Z.to_nat (0 - len (decimal 20 (Z.abs n) EmptyString))) with 0%nat
    by (unfold len; lia).
  cbn [repeatByte]. rewrite app_nil_l. by destruct (n <? 0).
Qed.

(** The decimal point. *)
Definition point (c : ascii) : bool := Ascii.eqb c "."%char.

Lemma anyByte_app (p : ascii -> bool) (a b : string) :
  Csv.anyByte p (a +:+ b) = Csv.anyByte p a || Csv.anyByte p b.
Proof.
  induction a as [|c a IH]; [reflexivity|].
  rewrite app_cons. cbn [Csv.anyByte]. by rewrite IH, orb_assoc.
Qed.

Lemma digit_not_point (k : Z) : 0 <= k < 10 -> point (digit k) = false.
Proof.
  intros Hk.
  assert (Hcases : k = 0 \/ k = 1 \/ k = 2 \/ k = 3 \/ k = 4 \/ k = 5
                   \/ k = 6 \/ k = 7 \/ k = 8 \/ k = 9) by lia.
  repeat (destruct Hcases as [->|Hcases]; [reflexivity|]). by subst k.
Qed.

Lemma decimal_no_point (fuel : nat) (u : Z) (acc : string) :
  Csv.anyByte point acc = false ->
  Csv.anyByte point (decimal fuel u acc) = false.
Proof.
  revert u acc. induction fuel as [|fuel IH]; intros u acc Hacc;
    cbn [decimal]; [done|].
  destruct (u <=? 0); [done|]. apply IH. cbn [Csv.anyByte].
  rewrite digit_not_point by (apply Z.mod_pos_bound; lia). done.
Qed.

(** An integral number of magnitude below a million is written as its
    decimal digits, without a decimal point. *)
Lemma integral_below_million (n : Z) :
  -1000000 < n < 1000000 ->
  Sprintv (VFloat (float64OfInt n)) = appendInt n 0
  /\ Csv.anyByte point (appendInt n 0) = false.
Proof.
  intros Hn. cbn [Sprintv].
  destruct (Z.eq_dec n 0) as [->|Hnz]; [by split|].
  rewrite appendInt_plain by done. split.
  - unfold float64OfInt. apply formatFloat_plain, decimal_positive. lia.
  - rewrite anyByte_app, decimal_no_point by done.
    by destruct (n <? 0).
Qed.

End Integral.

(** ** Calls on a concrete file system *)

Section Runs.

(** An environment in which the zone database knows Asia/Jakarta only,
    the clock reads 26 August 2025 there, and no file call fails. *)
Definition jakarta : Location := mkLocation "Asia/Jakarta" 25200.

Definition jakartaEnv : Env :=
  mkEnv (fun zoneName =>
           if String.eqb zoneName "Asia/Jakarta" then Some jakarta else None)
        (fun _ => instant_2025_08_26)
        (mkFaults None None None).

Definition booking : RecordToCSVService :=
  NewRecordToCSV "files/record" "booking_record"
    ["id"; "request"; "response"] "daily".

Definition bookingPath : string := "files/record/booking_record_2025_08_26.csv".

Definition bookingPayload : payload :=
  Value (VMap [("id", VString "123"); ("request", VString "GET /x");
               ("response", VString "200 OK")]).

Lemma booking_ready (r : RecordToCSVService) :
  Dir r = "files/record" -> Filename r = "booking_record" ->
  RecordType r = "daily" ->
  ready jakartaEnv r emptyOS bookingPath.
Proof.
  intros Hd Hf Ht. unfold ready. split_and!; [|by rewrite Hd|done|done].
  exists jakarta, "2025_08_26". unfold filePath. rewrite Hd, Hf, Ht.
  split_and!; reflexivity.
Qed.

(** The example of the README and of the spec: the first record of the
    day leaves the header line and one data line. *)
Example booking_file :
  fst (Record_ jakartaEnv booking bookingPayload emptyOS) = None
  /\ files (snd (Record_ jakartaEnv booking bookingPayload emptyOS)) !! bookingPath
     = Some ("id,request,response" +:+ str1 lf +:+ "123,GET /x,200 OK" +:+ str1 lf).
Proof. by vm_compute. Qed.

Lemma header_iff_file_empty_witness :
  ready jakartaEnv booking emptyOS bookingPath
  /\ files (snd (Record_ jakartaEnv booking bookingPayload emptyOS)) !! bookingPath
     = Some ("id,request,response" +:+ str1 lf +:+ "123,GET /x,200 OK" +:+ str1 lf).
Proof.
  assert (H : ready jakartaEnv booking emptyOS bookingPath)
    by (by apply booking_ready).
  split; [exact H|].
  destruct (header_iff_file_empty jakartaEnv booking bookingPayload emptyOS
              bookingPath H) as [Hempty _].
  rewrite Hempty; reflexivity.
Defined.

Lemma nil_payload_row_witness :
  ready jakartaEnv booking emptyOS bookingPath
  /\ fst (Record_ jakartaEnv booking Nil emptyOS) = None
  /\ files (snd (Record_ jakartaEnv booking Nil emptyOS)) !! bookingPath
     = Some ("id,request,response" +:+ str1 lf +:+ ",," +:+ str1 lf).
Proof.
  assert (H : ready jakartaEnv booking emptyOS bookingPath)
    by (by apply booking_ready).
  split; [exact H|].
  destruct (nil_payload_row jakartaEnv booking emptyOS bookingPath H) as [Hret Hfile].
  split; [exact Hret|]. rewrite Hfile; reflexivity.
Defined.

Lemma header_left_after_serialization_failure_witness :
  ready jakartaEnv booking emptyOS bookingPath
  /\ files emptyOS !! bookingPath = None
  /\ unserializable (Value (VString "not an object"))
  /\ files (snd (Record_ jakartaEnv booking (Value (VString "not an object"))
                   emptyOS)) !! bookingPath
     = Some ("id,request,response" +:+ str1 lf).
Proof.
  assert (H : ready jakartaEnv booking emptyOS bookingPath)
    by (by apply booking_ready).
  assert (Hnew : files emptyOS !! bookingPath = None) by reflexivity.
  assert (Hbad : unserializable (Value (VString "not an object"))) by reflexivity.
  split_and!; [exact H | exact Hnew | exact Hbad |].
  destruct (header_left_after_serialization_failure jakartaEnv booking
              (Value (VString "not an object")) emptyOS bookingPath H Hnew Hbad)
    as [_ Hfile].
  rewrite Hfile; reflexivity.
Defined.

(** The second record of the day, next to a file of another kind. *)
Definition secondCall : OS :=
  mkOS ∅
    (<[bookingPath := "id,request,response" +:+ str1 lf]>
       (<["files/record/notes.txt" := "keep"]> ∅))
    [] None.

Lemma record_is_append_only_witness :
  (exists x,
     files (snd (Record_ jakartaEnv booking bookingPayload secondCall)) !! bookingPath
     = Some (("id,request,response" +:+ str1 lf) +:+ x))
  /\ files (snd (Record_ jakartaEnv booking bookingPayload secondCall))
       !! "files/record/notes.txt"
     = Some "keep"
  /\ opened (snd (Record_ jakartaEnv booking bookingPayload secondCall)) = [].
Proof.
  destruct (record_is_append_only jakartaEnv booking bookingPayload secondCall)
    as (_ & _ & Hfront & Hother & _ & Hopened & _).
  split_and!.
  - apply Hfront. reflexivity.
  - rewrite Hother; [reflexivity|].
    intros (loc & suffix & Hloc & Hsuf & Hp).
    injection Hsuf as <-. discriminate Hp.
  - exact Hopened.
Defined.






(** *** The time zone *)

Lemma Append_faults env env' filename column data os :
  faults env = faults env' ->
  Append env filename column data os = Append env' filename column data os.
Proof. intros H. unfold Append, appendBody. by rewrite H. Qed.

(** An environment whose zone database knows every zone but
    Asia/Jakarta. *)
Definition otherZones : Env :=
  mkEnv (fun zoneName =>
           if String.eqb zoneName "Asia/Jakarta" then None
           else Some (mkLocation zoneName 0))
        (fun _ => instant_2025_08_26)
        (mkFaults None None None).

(** C8 as stated does not hold: no recorder can be built that works
    from another zone.  Where Asia/Jakarta does not resolve and every
    other zone does, every call of every recorder fails on the zone. *)
Lemma zone_not_configurable :
  ~ exists r data os, fst (Record_ otherZones r data os) <> Some ErrLoadLocation.
Proof. intros (r & data & os & H). by apply H. Qed.

(** C8, amended.  The zone is the constant "Asia/Jakarta" inside
    [Record]: two environments that agree on that zone, on the clock
    read in it and on the faults give the same result for every
    recorder, whatever else their zone databases hold. *)
Theorem zone_is_fixed env env' r data os :
  LoadLocation env "Asia/Jakarta" = LoadLocation env' "Asia/Jakarta" ->
  (forall loc, LoadLocation env "Asia/Jakarta" = Some loc ->
     Now env loc = Now env' loc) ->
  faults env = faults env' ->
  Record_ env r data os = Record_ env' r data os.
Proof.
  intros Hzone Hclock Hflt. unfold Record_. rewrite <- Hzone.
  destruct (LoadLocation env "Asia/Jakarta") as [loc|]; [|done].
  rewrite <- (Hclock loc eq_refl), <- Hflt.
  destruct (periodSuffix _ _) as [suffix|]; [|done].
  destruct (MkdirAll _ _ _) as [[e|] os1]; [done|].
  by rewrite (Append_faults env env' _ _ _ _ Hflt).
Qed.

(** An environment that also knows UTC, where it is still the day
    before. *)
Definition twoZones : Env :=
  mkEnv (fun zoneName =>
           if String.eqb zoneName "Asia/Jakarta" then Some jakarta
           else if String.eqb zoneName "UTC" then Some (mkLocation "UTC" 0)
           else None)
        (fun loc =>
           if String.eqb (zone loc) "Asia/Jakarta" then instant_2025_08_26
           else mkTime 2025 8 25 23 5 9 237)
        (mkFaults None None None).

Lemma zone_is_fixed_witness :
  LoadLocation jakartaEnv "Asia/Jakarta" = LoadLocation twoZones "Asia/Jakarta"
  /\ (forall loc, LoadLocation jakartaEnv "Asia/Jakarta" = Some loc ->
        Now jakartaEnv loc = Now twoZones loc)
  /\ faults jakartaEnv = faults twoZones
  /\ Record_ jakartaEnv booking bookingPayload emptyOS
     = Record_ twoZones booking bookingPayload emptyOS.
Proof.
  assert (Hclock : forall loc, LoadLocation jakartaEnv "Asia/Jakarta" = Some loc ->
                     Now jakartaEnv loc = Now twoZones loc).
  { intros loc H. injection H as <-. reflexivity. }
  split_and!; [reflexivity | exact Hclock | reflexivity |].
  exact (zone_is_fixed jakartaEnv twoZones booking bookingPayload emptyOS
           eq_refl Hclock eq_refl).
Defined.

(** *** Numbers *)

Lemma field_absent dataMap col : dataMap !! col = None -> field dataMap col = EmptyString.
Proof. intros H. unfold field. by rewrite H. Qed.

Lemma field_null dataMap col :
  dataMap !! col = Some VNil -> field dataMap col = EmptyString.
Proof. intros H. unfold field. by rewrite H. Qed.

Lemma field_string dataMap col s :
  dataMap !! col = Some (VString s) -> field dataMap col = s.
Proof. intros H. unfold field. by rewrite H. Qed.

Lemma field_bool dataMap col b :
  dataMap !! col = Some (VBool b) ->
  field dataMap col = if b then "true" else "false".
Proof. intros H. unfold field. by rewrite H. Qed.

Lemma row_one_field_per_column dataMap column :
  length (map (field dataMap) column) = length column.
Proof. apply length_map. Qed.

(** A key outside the column list has no part in the row. *)
Lemma row_ignores_other_keys dataMap column key val :
  ~ In key column ->
  map (field (<[key := val]> dataMap)) column = map (field dataMap) column.
Proof.
  intros H. apply map_ext_in. intros col Hcol. unfold field.
  rewrite lookup_insert_ne; [done|]. by intros ->.
Qed.

Example integral_numbers :
  map (fun n => Sprintv (VFloat (float64OfInt n)))
    [0; 1; -42; 123; 999999; 1000000; 1234567]
  = ["0"; "1"; "-42"; "123"; "999999"; "1e+06"; "1.234567e+06"].
Proof. reflexivity. Qed.

(** C3 at the integral number 1234567: the field written is in exponent
    form, with a decimal point. *)
Theorem integral_number_in_exponent_form :
  let r := NewRecordToCSV "files/record" "booking_record" ["id"; "paid"] "daily" in
  let data := Value (VMap [("id", VFloat (float64OfInt 1234567));
                           ("paid", VBool true)]) in
  fst (Record_ jakartaEnv r data emptyOS) = None
  /\ files (snd (Record_ jakartaEnv r data emptyOS)) !! bookingPath
     = Some ("id,paid" +:+ str1 lf +:+ "1.234567e+06,true" +:+ str1 lf)
  /\ Csv.anyByte point (Sprintv (VFloat (float64OfInt 1234567))) = true.
Proof. by vm_compute. Qed.

(** *** A full device *)

Definition fullDisk : OS := mkOS ∅ ∅ [] (Some 0%nat).

(** C5 on a device that takes no byte: the body of [Append] finds no
    error, because the header and the row are still in the buffer when
    it asks the writer; the deferred flush then fails; [Record] has
    already fixed its result and returns [nil]; the file holds
    nothing. *)
Theorem flush_error_not_reported :
  let file := mkFile bookingPath true 0 in
  let atOpen :=
    snd (OpenFile (faults jakartaEnv) bookingPath appendFlags
           (snd (MkdirAll (faults jakartaEnv) (Dir booking) fullDisk))) in
  let body :=
    appendBody jakartaEnv bookingPath (Column booking) bookingPayload file
      (Bufio.NewWriter file, atOpen) in
  fst body = None
  /\ fst (Csv.Flush (snd body)) = Some ENOSPC
  /\ fst (Record_ jakartaEnv booking bookingPayload fullDisk) = None
  /\ files (snd (Record_ jakartaEnv booking bookingPayload fullDisk)) !! bookingPath
     = Some EmptyString.
Proof. by vm_compute. Qed.

End Runs.


(** * Further properties of [Record] and [Append] *)

(** ** What the writer of a line does, for any reading of "does"

    The loops of [Csv.Write] are built from [ok], [;;;], [WriteByte] and
    [WriteString]; a property of writer calls that these four have is a
    property of [Write]. *)

Section WriteBy.

Import Bufio.

Variable P : io -> string -> Prop.
Hypothesis P_ok : P ok EmptyString.
Hypothesis P_andThen :
  forall a k x y, P a x -> P k y -> P (a ;;; k) (x +:+ y).
Hypothesis P_WriteByte : forall c, P (WriteByte c) (str1 c).
Hypothesis P_WriteString : forall s, P (WriteString s) s.

Lemma by_cast (op : io) (x y : string) : P op x -> x = y -> P op y.
Proof. by intros H <-. Qed.

Lemma by_writeQuoted (field seg : string) :
  P (Csv.writeQuoted seg field) (seg +:+ Csv.quoted field).
Proof.
  revert seg. induction field as [|c rest IH]; intros seg;
    cbn [Csv.writeQuoted Csv.quoted].
  - rewrite app_nil_r. destruct (String.eqb seg EmptyString) eqn:E.
    + apply eqb_empty in E. subst seg. apply P_ok.
    + apply P_WriteString.
  - destruct (Csv.stop c) eqn:Hstop.
    + destruct (Ascii.eqb c dquote) eqn:Hq.
      * eapply by_cast.
        { apply P_andThen; [apply P_WriteString|].
          apply P_andThen; [apply P_WriteString | apply (IH EmptyString)]. }
        reflexivity.
      * eapply by_cast.
        { apply P_andThen; [apply P_WriteString|].
          apply P_andThen; [apply P_WriteByte | apply (IH EmptyString)]. }
        reflexivity.
    + rewrite (stop_not_quote _ Hstop).
      eapply by_cast; [apply IH|]. by rewrite app_assoc.
Qed.

Lemma by_writeFields (record : list string) (sep : bool) :
  P (Csv.writeFields sep record) (Csv.encodeFields sep record).
Proof.
  revert sep. induction record as [|f rest IH]; intros sep;
    cbn [Csv.writeFields Csv.encodeFields]; [apply P_ok|].
  apply P_andThen; [destruct sep; [apply P_WriteByte | apply P_ok]|].
  apply P_andThen; [|apply IH].
  unfold Csv.writeField, Csv.encodeField.
  destruct (Csv.fieldNeedsQuotes f); cbn [negb]; [|apply P_WriteString].
  eapply by_cast.
  { apply P_andThen; [apply P_WriteByte|].
    apply P_andThen; [apply by_writeQuoted | apply P_WriteByte]. }
  reflexivity.
Qed.

Lemma by_Write (record : list string) :
  P (Csv.Write record) (Csv.encode record).
Proof. apply P_andThen; [apply by_writeFields | apply P_WriteByte]. Qed.

End WriteBy.

(** ** The last error check of [Append]

    A writer call that returns no error leaves no error in the writer. *)

Section Sound.

Import Bufio.

Definition sound (op : io) : Prop :=
  forall st, err (fst st) = None -> fst (op st) = None ->
             err (fst (snd (op st))) = None.

Lemma sound_ok : sound ok.
Proof. by intros st H _. Qed.

Lemma sound_andThen (a k : io) : sound a -> sound k -> sound (a ;;; k).
Proof.
  intros Ha Hk st H. unfold andThen. specialize (Ha st H).
  destruct (a st) as [[e|] st1]; [done|]. cbn in Ha. intros Hr.
  by apply Hk; [apply Ha|].
Qed.

Lemma sound_Flush : sound Flush.
Proof.
  intros [b os] H. cbn in H. unfold Flush. rewrite H.
  destruct (len (buf b) =? 0); [done|].
  destruct (FileWrite (wr b) (buf b) os) as [[[n e] f] os'].
  by destruct e.
Qed.

Lemma sound_copyRest (s : string) : sound (copyRest s).
Proof. intros [b os] H. cbn in H. unfold copyRest. by rewrite H. Qed.

Lemma sound_WriteByte (c : ascii) : sound (WriteByte c).
Proof.
  intros [b os] H. cbn in H. unfold WriteByte. rewrite H.
  destruct (Available b <=? 0); [|by cbn].
  pose proof (sound_Flush (b, os) H) as HF.
  destruct (Flush (b, os)) as [[e|] [b1 os1]]; cbn in *; [done|].
  intros _. by apply HF.
Qed.

Lemma sound_through (s : string) st :
  fst (let '(s1, st1) := writeThrough s st in copyRest s1 st1) = None ->
  err (fst (snd (let '(s1, st1) := writeThrough s st in copyRest s1 st1))) = None.
Proof.
  destruct st as [b os]. unfold writeThrough.
  destruct (FileWrite (wr b) s os) as [[[n e] f] os'].
  unfold copyRest. cbn. by destruct e.
Qed.

Lemma sound_WriteString (s : string) : sound (WriteString s).
Proof.
  intros [b os] H. cbn in H. unfold WriteString.
  destruct ((Available b <? len s) && bool_decide (err b = None));
    [|by apply sound_copyRest].
  destruct (len (buf b) =? 0); [apply sound_through|].
  destruct (Flush _) as [fe [b1 os1]].
  destruct ((Available b1 <? len _) && bool_decide (err b1 = None)) eqn:E;
    [apply sound_through|].
  unfold copyRest. by destruct (err b1).
Qed.

Lemma sound_Write (record : list string) : sound (Csv.Write record).
Proof.
  apply (by_Write (fun op _ => sound op));
    auto using sound_ok, sound_andThen, sound_WriteByte, sound_WriteString.
Qed.

(** The errors [Append] can return for the file [path]; the one of the
    last check, "CSV writer encountered an error", is not among them. *)
Inductive appendError (path : string) : error -> Prop :=
| OpenFailed cause : appendError path (ErrOpen path cause)
| StatFailed cause : appendError path (ErrStat path cause)
| HeaderFailed cause : appendError path (ErrHeader path cause)
| MarshalFailed : appendError path ErrMarshal
| UnmarshalFailed : appendError path ErrUnmarshal
| RecordFailed cause : appendError path (ErrRecord path cause).

Lemma Append_errors env filename column data os :
  fst (Append env filename column data os) = None
  \/ exists inner,
       appendError filename inner
       /\ fst (Append env filename column data os) = Some inner.
Proof.
  unfold Append.
  destruct (OpenFile _ _ _ _) as [[file|cause] os0];
    [|right; eexists; split; [apply OpenFailed | done]].
  assert (Hbody :
    fst (appendBody env filename column data file (NewWriter file, os0)) = None
    \/ exists inner,
         appendError filename inner
         /\ fst (appendBody env filename column data file (NewWriter file, os0))
            = Some inner).
  { unfold appendBody.
    destruct (StatSize _ _ _) as [size|cause];
      [|right; eexists; split; [apply StatFailed | done]].
    set (st0 := (NewWriter file, os0)).
    assert (H1 : fst (if size =? 0 then Csv.Write column st0 else (None, st0)) = None ->
                 err (fst (snd (if size =? 0 then Csv.Write column st0
                                else (None, st0)))) = None).
    { destruct (size =? 0); [by apply sound_Write | done]. }
    destruct (if size =? 0 then _ else _) as [[cause|] st1];
      [right; eexists; split; [apply HeaderFailed | done]|].
    specialize (H1 eq_refl). cbn in H1.
    destruct (Marshal data) as [json|];
      [|right; eexists; split; [apply MarshalFailed | done]].
    destruct (Unmarshal json) as [dataMap|];
      [|right; eexists; split; [apply UnmarshalFailed | done]].
    pose proof (sound_Write (map (field dataMap) column) st1 H1) as H2.
    destruct (Csv.Write _ st1) as [[cause|] [b2 os2]];
      [right; eexists; split; [apply RecordFailed | done]|].
    specialize (H2 eq_refl). cbn in H2.
    unfold Csv.Error, WriteNil, copyRest. rewrite H2. by left. }
  destruct (appendBody _ _ _ _ _ _) as [result st].
  by destruct (Csv.Flush st) as [? [? ?]].
Qed.

(** Every result of [Record]: [nil], the time zone error, the record
    type error, the directory error, or one of the six errors of
    [Append] wrapped with the path of the target file. *)
Definition recordResult (env : Env) (r : RecordToCSVService)
    (result : option error) : Prop :=
  result = None
  \/ result = Some ErrLoadLocation
  \/ result = Some (ErrRecordType (RecordType r))
  \/ (exists cause, result = Some (ErrMkdirAll (Dir r) cause))
  \/ (exists path inner,
        targets env r path /\ appendError path inner
        /\ result = Some (ErrAppend path inner)).

(** X1.  [Record] returns nothing else: whatever the payload, the file
    system and the faults, its result is [nil] or one of these errors.
    The error of [csvWriter.Error()] is not among them: a failed write
    has been returned by the [Write] before it. *)
Theorem record_results env r data os :
  recordResult env r (fst (Record_ env r data os)).
Proof.
  unfold recordResult, Record_, targets.
  destruct (LoadLocation env "Asia/Jakarta") as [loc|]; [|by right; left].
  destruct (periodSuffix _ _) as [suffix|] eqn:Hs; [|by right; right; left].
  destruct (MkdirAll _ _ _) as [[cause|] os1];
    [right; right; right; left; by eexists|].
  destruct (Append_errors env (filePath r suffix) (Column r) data os1)
    as [E|(inner & Hin & E)];
    destruct (Append _ _ _ _ os1) as [[a|] os2]; cbn in E; try discriminate;
    [by left|].
  injection E as ->. right; right; right; right.
  exists (filePath r suffix), inner. split; [by exists loc, suffix|done].
Qed.

End Sound.

(** ** Lines that fit the buffer, and a device without room *)

Section Buffered.

Import Bufio.

Lemma len_app (a b : string) : len (a +:+ b) = len a + len b.
Proof. unfold len. rewrite length_app. lia. Qed.

Lemma len_nonneg (s : string) : 0 <= len s.
Proof. unfold len. lia. Qed.

Lemma take_all (n : nat) (s : string) :
  (String.length s <= n)%nat -> take n s = s.
Proof.
  revert s. induction n as [|n IH]; intros [|c s] H; cbn in *;
    try reflexivity; try lia.
  rewrite IH; [done|lia].
Qed.

(** [op] adds [x] to the buffer and touches nothing else, whenever the
    buffer has the room. *)
Definition buffers (op : io) (x : string) : Prop :=
  forall b os,
    err b = None ->
    len (buf b +:+ x) <= defaultBufSize ->
    op (b, os) = (None, (mkWriter (wr b) (buf b +:+ x) None, os)).

Lemma buffers_ok : buffers ok EmptyString.
Proof.
  intros [f s e] os He _. cbn in *. subst e. by rewrite app_nil_r.
Qed.

Lemma buffers_andThen (a k : io) (x y : string) :
  buffers a x -> buffers k y -> buffers (a ;;; k) (x +:+ y).
Proof.
  intros Ha Hk b os He Hlen. unfold andThen.
  rewrite Ha; [|done|].
  - rewrite Hk; [cbn [wr buf]; by rewrite app_assoc|done|].
    cbn [buf]. by rewrite app_assoc.
  - rewrite !len_app in *. pose proof (len_nonneg y). lia.
Qed.

Lemma buffers_copyRest (s : string) : buffers (copyRest s) s.
Proof. intros b os He _. unfold copyRest. by rewrite He. Qed.

Lemma buffers_WriteByte (c : ascii) : buffers (WriteByte c) (str1 c).
Proof.
  intros b os He Hlen. unfold WriteByte, Available. rewrite He.
  rewrite len_app in Hlen. change (len (str1 c)) with 1 in Hlen.
  destruct (Z.leb_spec (defaultBufSize - len (buf b)) 0); [lia|].
  by rewrite He.
Qed.

Lemma buffers_WriteString (s : string) : buffers (WriteString s) s.
Proof.
  intros b os He Hlen. unfold WriteString, Available.
  rewrite len_app in Hlen.
  destruct (Z.ltb_spec (defaultBufSize - len (buf b)) (len s)); [lia|].
  cbn [andb]. by apply buffers_copyRest; [|rewrite len_app].
Qed.

Lemma buffers_Write (record : list string) :
  buffers (Csv.Write record) (Csv.encode record).
Proof.
  apply (by_Write buffers);
    auto using buffers_ok, buffers_andThen, buffers_WriteByte, buffers_WriteString.
Qed.

(** What a device with the given room takes of the bytes [x]. *)
Definition accepted (room : option nat) (x : string) : string :=
  match room with
  | None => x
  | Some n => take n x
  end.

Lemma FileWrite_accepted (f : File) (p : string) (os : OS) :
  appendMode f = true ->
  files (snd (FileWrite f p os))
  = <[name f := content f os +:+ accepted (space os) p]> (files os).
Proof.
  intros Ha. unfold FileWrite, accepted. rewrite Ha.
  destruct (space os) as [n|]; [destruct (Nat.leb_spec (String.length p) n)|];
    cbn; rewrite take_length, drop_past, app_nil_r by lia; [|done|done].
  by rewrite take_all.
Qed.

(** The body of [Append] on a line that fits the buffer: nothing
    reaches the file, and the result is fixed without asking the
    device. *)
Lemma appendBody_buffered env filename column data file os1 :
  statErr (faults env) = None ->
  let old := content file os1 in
  len (added column data old) <= defaultBufSize ->
  appendBody env filename column data file (NewWriter file, os1)
  = (outcome column data,
     (mkWriter file (added column data old) None, os1)).
Proof.
  intros Hstat old Hlen. unfold appendBody, StatSize. rewrite Hstat.
  cbn [snd]. fold old. unfold added, outcome, row, header in *.
  destruct (len old =? 0).
  - rewrite len_app in Hlen.
    rewrite buffers_Write; [|done|].
    2: { cbn [buf NewWriter]. rewrite app_nil_l.
         match type of Hlen with _ + len ?l <= _ => pose proof (len_nonneg l) end.
         lia. }
    cbn [buf wr NewWriter] in *. rewrite app_nil_l.
    destruct (Marshal data) as [json|]; [|by rewrite app_nil_r].
    destruct (Unmarshal json) as [dataMap|]; [|by rewrite app_nil_r].
    rewrite buffers_Write; [|done|by rewrite len_app]. cbn [buf wr].
    unfold Csv.Error, WriteNil. rewrite buffers_copyRest; [|done|].
    + cbn [buf wr]. by rewrite app_nil_r.
    + cbn [buf]. by rewrite app_nil_r, len_app.
  - rewrite app_nil_l in *.
    destruct (Marshal data) as [json|]; [|done].
    destruct (Unmarshal json) as [dataMap|]; [|done].
    rewrite buffers_Write; [|done|done]. cbn [buf wr NewWriter].
    rewrite app_nil_l.
    unfold Csv.Error, WriteNil. rewrite buffers_copyRest; [|done|].
    + cbn [buf wr]. by rewrite app_nil_r.
    + cbn [buf]. by rewrite app_nil_r.
Qed.

(** A call that reaches the writes: the zone resolves, the record type
    names the file [path], and the directory, the open and the stat
    succeed.  The device may or may not have room. *)
Definition reaches (env : Env) (r : RecordToCSVService) (path : string) : Prop :=
  targets env r path
  /\ Dir r <> EmptyString
  /\ faults env = mkFaults None None None.

Lemma Record_reaches env r data os path :
  reaches env r path ->
  Record_ env r data os
  = (let '(result, os2) :=
       Append env path (Column r) data
         (mkOS (dirs os ∪ made (Dir r)) (files os) (opened os) (space os)) in
     (ErrAppend path <$> result, os2)).
Proof.
  intros ((loc & suffix & Hloc & Hsuf & ->) & Hdir & Hflt).
  unfold Record_. rewrite Hloc, Hsuf. unfold MkdirAll.
  destruct (String.eqb_spec (Dir r) EmptyString) as [|_]; [done|].
  rewrite Hflt. cbn [mkdirErr]. fold (made (Dir r)).
  by destruct (Append _ _ _ _ _) as [[e|] os2].
Qed.

Lemma Append_buffered env filename column data os :
  openErr (faults env) = None ->
  statErr (faults env) = None ->
  let old := bytesAt os filename in
  len (added column data old) <= defaultBufSize ->
  fst (Append env filename column data os) = outcome column data
  /\ bytesAt (snd (Append env filename column data os)) filename
     = old +:+ accepted (space os) (added column data old).
Proof.
  intros Hopen Hstat old Hlen. unfold Append.
  destruct (OpenFile _ _ _ os) as [[file|e] os1] eqn:EO.
  2: { unfold OpenFile in EO. rewrite Hopen in EO.
       by destruct (files os !! filename). }
  destruct (OpenFile_content _ _ _ _ _ EO) as (-> & Hs1 & Hc1).
  set (file := mkFile filename true 0) in *.
  rewrite appendBody_buffered by (by rewrite ?Hc1).
  rewrite Hc1. fold old. split.
  - unfold Csv.Flush, Flush. cbn [err buf wr].
    destruct (len (added column data old) =? 0); [done|].
    destruct (FileWrite _ _ _) as [[[n e] f] os'].
    by destruct e.
  - unfold Csv.Flush, Flush. cbn [err buf wr].
    destruct (len (added column data old) =? 0) eqn:Hz.
    + apply len_zero in Hz. rewrite Hz.
      transitivity (content file os1); [reflexivity|].
      rewrite Hc1. unfold accepted. destruct (space os) as [[|n]|];
        by rewrite app_nil_r.
    + pose proof (FileWrite_accepted file (added column data old) os1 eq_refl) as HF.
      destruct (FileWrite _ _ _) as [[[n e] f] os'].
      cbn in HF. rewrite Hc1, Hs1 in HF.
      destruct e; unfold bytesAt, Close; cbn [files snd];
        by rewrite HF, lookup_insert_eq.
Qed.

(** X2.  A device error is never reported for a header and row that fit the
    4096 bytes of the buffer: the result is the one of a device without
    faults, and the file has gained what the device took of the
    bytes. *)
Theorem small_record_device_error_unreported env r data os path :
  reaches env r path ->
  let old := bytesAt os path in
  len (added (Column r) data old) <= Bufio.defaultBufSize ->
  fst (Record_ env r data os) = ErrAppend path <$> outcome (Column r) data
  /\ bytesAt (snd (Record_ env r data os)) path
     = old +:+ accepted (space os) (added (Column r) data old).
Proof.
  intros Hreach old Hlen. rewrite (Record_reaches _ _ _ _ _ Hreach).
  destruct Hreach as (_ & _ & Hflt).
  set (os1 := mkOS _ _ _ _).
  destruct (Append_buffered env path (Column r) data os1) as [E B];
    [by rewrite Hflt | by rewrite Hflt | done |].
  destruct (Append _ _ _ _ os1) as [result os2]. cbn in E, B.
  by subst result.
Qed.

End Buffered.

(** ** A device without room *)

Section FullDevice.

Import Bufio.

(** On a device without room, [op] fails as soon as the buffer cannot
    hold [x], and the failed write leaves the file system as it was. *)
Definition overflows (op : io) (x : string) : Prop :=
  forall b os c,
    err b = None ->
    appendMode (wr b) = true ->
    space os = Some 0%nat ->
    files os !! name (wr b) = Some c ->
    len (buf b) <= defaultBufSize ->
    defaultBufSize < len (buf b +:+ x) ->
    exists b', op (b, os) = (Some ENOSPC, (b', os)) /\ err b' = Some ENOSPC.

Definition chokes (op : io) (x : string) : Prop :=
  buffers op x /\ overflows op x.

Lemma FileWrite_full (f : File) (p : string) (os : OS) (c : string) :
  appendMode f = true ->
  space os = Some 0%nat ->
  files os !! name f = Some c ->
  p <> EmptyString ->
  exists f', FileWrite f p os = (0%nat, Some ENOSPC, f', os).
Proof.
  intros Ha Hs Hc Hp. unfold FileWrite, content. rewrite Ha, Hs, Hc.
  change (default EmptyString (Some c)) with c.
  destruct p as [|x p]; [done|]. cbn [String.length Nat.leb take].
  eexists. f_equal.
  rewrite app_nil_l, take_length, drop_past, app_nil_r by lia.
  rewrite insert_id by done.
  destruct os; cbn in *. by subst.
Qed.

Lemma nonempty_len (s : string) : 0 < len s -> s <> EmptyString.
Proof. by intros H ->. Qed.

Lemma chokes_ok : chokes ok EmptyString.
Proof.
  split; [apply buffers_ok|].
  intros b os c _ _ _ _ Hfit Hlen. rewrite app_nil_r in Hlen. lia.
Qed.

Lemma chokes_andThen (a k : io) (x y : string) :
  chokes a x -> chokes k y -> chokes (a ;;; k) (x +:+ y).
Proof.
  intros [Ba Oa] [Bk Ok]. split; [by apply buffers_andThen|].
  intros b os c He Ha Hs Hc Hfit Hlen. unfold andThen.
  destruct (Z.le_gt_cases (len (buf b +:+ x)) defaultBufSize) as [Hx|Hx].
  - rewrite Ba by done.
    destruct (Ok (mkWriter (wr b) (buf b +:+ x) None) os c) as (b' & E & He');
      try done; [cbn [buf]; by rewrite app_assoc|].
    rewrite E. by exists b'.
  - destruct (Oa b os c) as (b' & E & He'); try done.
    rewrite E. by exists b'.
Qed.

Lemma Flush_full b os c :
  err b = None ->
  appendMode (wr b) = true ->
  space os = Some 0%nat ->
  files os !! name (wr b) = Some c ->
  0 < len (buf b) ->
  exists b', Flush (b, os) = (Some ENOSPC, (b', os)) /\ err b' = Some ENOSPC.
Proof.
  intros He Ha Hs Hc Hlen. unfold Flush. rewrite He.
  destruct (Z.eqb_spec (len (buf b)) 0); [lia|].
  destruct (FileWrite_full (wr b) (buf b) os c) as (f' & ->);
    try done; [by apply nonempty_len|].
  by eexists.
Qed.

Lemma chokes_WriteByte (c : ascii) : chokes (WriteByte c) (str1 c).
Proof.
  split; [apply buffers_WriteByte|].
  intros b os c0 He Ha Hs Hc Hfit Hlen. unfold WriteByte, Available. rewrite He.
  rewrite len_app in Hlen. change (len (str1 c)) with 1 in Hlen.
  destruct (Z.leb_spec (defaultBufSize - len (buf b)) 0); [|lia].
  destruct (Flush_full b os c0) as (b' & -> & He');
    try done; [unfold defaultBufSize in *; lia|].
  exists b'. by rewrite He'.
Qed.

Lemma chokes_WriteString (s : string) : chokes (WriteString s) s.
Proof.
  split; [apply buffers_WriteString|].
  intros b os c He Ha Hs Hc Hfit Hlen. unfold WriteString, Available.
  rewrite len_app in Hlen.
  destruct (Z.ltb_spec (defaultBufSize - len (buf b)) (len s)); [|lia].
  rewrite He. cbn [andb bool_decide decide_rel]. rewrite bool_decide_eq_true_2 by done.
  destruct (Z.eqb_spec (len (buf b)) 0) as [Hz|Hz].
  - unfold writeThrough.
    destruct (FileWrite_full (wr b) s os c) as (f' & ->); try done.
    { apply nonempty_len. unfold defaultBufSize in *. lia. }
    cbn. by eexists.
  - set (n := Z.to_nat (defaultBufSize - len (buf b))).
    destruct (Flush_full (mkWriter (wr b) (buf b +:+ take n s) None) os c)
      as (b' & E & He'); try done.
    { cbn [buf]. rewrite len_app. pose proof (len_nonneg (buf b)).
      pose proof (len_nonneg (take n s)). lia. }
    rewrite E, He'. cbn [andb]. rewrite andb_false_r.
    unfold copyRest. rewrite He'. by exists b'.
Qed.

Lemma chokes_Write (record : list string) :
  chokes (Csv.Write record) (Csv.encode record).
Proof.
  apply (by_Write chokes);
    auto using chokes_ok, chokes_andThen, chokes_WriteByte, chokes_WriteString.
Qed.

Lemma OpenFile_exists flt filename os file os1 :
  OpenFile flt filename appendFlags os = (inl file, os1) ->
  files os1 !! filename = Some (bytesAt os filename).
Proof.
  unfold OpenFile, bytesAt. destruct (openErr flt); [done|].
  destruct (files os !! filename) as [c|] eqn:E; cbn; intros [= <- <-]; cbn.
  - done.
  - by rewrite lookup_insert_eq.
Qed.

(** What [Append] returns on a device without room: the write of the
    header fails if the header alone is longer than the buffer, the
    write of the row fails if header and row together are, and
    otherwise no failure is seen. *)
Definition fullOutcome (filename : string) (column : list string)
    (data : payload) (old : string) : option error :=
  if defaultBufSize <? len (header column old)
  then Some (ErrHeader filename ENOSPC)
  else
    match row column data with
    | inr e => Some e
    | inl line =>
        if defaultBufSize <? len (header column old +:+ line)
        then Some (ErrRecord filename ENOSPC)
        else None
    end.

Lemma appendBody_full env filename column data file os1 c :
  statErr (faults env) = None ->
  appendMode file = true ->
  space os1 = Some 0%nat ->
  files os1 !! name file = Some c ->
  exists b,
    appendBody env filename column data file (NewWriter file, os1)
    = (fullOutcome filename column data c, (b, os1))
    /\ (err b = Some ENOSPC \/ wr b = file).
Proof.
  intros Hstat Ha Hs Hc. unfold appendBody, StatSize, fullOutcome, header, row.
  rewrite Hstat. unfold content. cbn [snd]. rewrite Hc.
  change (default EmptyString (Some c)) with c.
  destruct (chokes_Write column) as [Bh Oh].
  destruct (len c =? 0).
  - destruct (Z.ltb_spec defaultBufSize (len (Csv.encode column))) as [Hh|Hh].
    + destruct (Oh (NewWriter file) os1 c) as (b' & -> & He'); try done.
      eexists; split; [done|by left].
    + rewrite Bh by done. cbn [NewWriter buf wr]. rewrite app_nil_l.
      destruct (Marshal data) as [json|]; [|eexists; split; [done|by right]].
      destruct (Unmarshal json) as [dataMap|];
        [|eexists; split; [done|by right]].
      destruct (chokes_Write (map (field dataMap) column)) as [Br Or].
      destruct (Z.ltb_spec defaultBufSize
                  (len (Csv.encode column
                        +:+ Csv.encode (map (field dataMap) column)))) as [Hr|Hr].
      * destruct (Or (mkWriter file (Csv.encode column) None) os1 c)
          as (b' & -> & He'); try done.
        eexists; split; [done|by left].
      * rewrite Br by done. cbn [buf wr].
        unfold Csv.Error, WriteNil, copyRest. cbn [err].
        eexists; split; [done|by right].
  - change (len EmptyString) with 0.
    change (defaultBufSize <? 0) with false. cbn match.
    destruct (Marshal data) as [json|]; [|eexists; split; [done|by right]].
    destruct (Unmarshal json) as [dataMap|]; [|eexists; split; [done|by right]].
    destruct (chokes_Write (map (field dataMap) column)) as [Br Or].
    rewrite app_nil_l.
    destruct (Z.ltb_spec defaultBufSize
                (len (Csv.encode (map (field dataMap) column)))) as [Hr|Hr].
    + destruct (Or (NewWriter file) os1 c) as (b' & -> & He'); try done.
      eexists; split; [done|by left].
    + rewrite Br by done. cbn [NewWriter buf wr].
      unfold Csv.Error, WriteNil, copyRest. cbn [err].
      eexists; split; [done|by right].
Qed.

Lemma Flush_keeps_full b os c :
  err b = Some ENOSPC \/ appendMode (wr b) = true ->
  space os = Some 0%nat ->
  files os !! name (wr b) = Some c ->
  snd (snd (Flush (b, os))) = os.
Proof.
  intros [He|Ha] Hs Hc; unfold Flush; [by rewrite He|].
  destruct (err b); [done|].
  destruct (Z.eqb_spec (len (buf b)) 0); [done|].
  destruct (FileWrite_full (wr b) (buf b) os c) as (f' & ->); try done.
  apply nonempty_len. pose proof (len_nonneg (buf b)). lia.
Qed.

(** X3.  On a device without room the file gains nothing, and [Record]
    reports the failure only when the header, or the header and the
    row, are longer than the 4096 bytes of the buffer. *)
Theorem full_device_error_iff_overflow env r data os path :
  reaches env r path ->
  space os = Some 0%nat ->
  fst (Record_ env r data os)
  = ErrAppend path <$> fullOutcome path (Column r) data (bytesAt os path)
  /\ bytesAt (snd (Record_ env r data os)) path = bytesAt os path.
Proof.
  intros Hreach Hspace. rewrite (Record_reaches _ _ _ _ _ Hreach).
  destruct Hreach as (_ & _ & Hflt).
  set (os0 := mkOS _ _ _ _). unfold Append.
  destruct (OpenFile _ _ _ os0) as [[file|e] os1] eqn:EO.
  2: { unfold OpenFile in EO. rewrite Hflt in EO. cbn in EO.
       by destruct (files os !! path). }
  destruct (OpenFile_content _ _ _ _ _ EO) as (Hfile & Hs1 & Hc1).
  pose proof (OpenFile_exists _ _ _ _ _ EO) as Hex.
  change (bytesAt os0 path) with (bytesAt os path) in *.
  assert (Hn : name file = path) by (by subst file).
  destruct (appendBody_full env path (Column r) data file os1 (bytesAt os path))
    as (b & -> & Hb);
    [by rewrite Hflt | by subst file | by rewrite Hs1 | by rewrite Hn |].
  unfold Csv.Flush.
  assert (Hkeep : snd (snd (Flush (b, os1))) = os1).
  { destruct Hb as [He|Hw].
    - unfold Flush. by rewrite He.
    - apply (Flush_keeps_full b os1 (bytesAt os path)); [right|..];
        rewrite ?Hw, ?Hn; try done; [by subst file | by rewrite Hs1]. }
  destruct (Flush (b, os1)) as [fe [b2 os2]]. cbn in Hkeep. subst os2.
  cbn [fst snd]. split; [done|].
  transitivity (content file os1); [|done].
  unfold bytesAt, content, Close. cbn [files]. by rewrite Hn.
Qed.

End FullDevice.

(** ** Several calls in one period *)

Section Calls.

(** [Record] called once for each payload, in order. *)
Definition RecordAll (env : Env) (r : RecordToCSVService) (datas : list payload)
    (os : OS) : OS :=
  fold_left (fun os data => snd (Record_ env r data os)) datas os.

(** The line a payload adds: its row, or nothing if it has no mapping. *)
Definition lineOf (column : list string) (data : payload) : string :=
  match row column data with
  | inl line => line
  | inr _ => EmptyString
  end.

Definition joinLines (lines : list string) : string :=
  fold_right String.append EmptyString lines.

Lemma encode_nonempty (record : list string) : 0 < len (Csv.encode record).
Proof.
  unfold Csv.encode. rewrite len_app. change (len (str1 lf)) with 1.
  pose proof (len_nonneg (Csv.encodeFields false record)). lia.
Qed.

Lemma header_then_nonempty (column : list string) (old x : string) :
  (len (old +:+ header column old +:+ x) =? 0) = false.
Proof.
  apply Z.eqb_neq. rewrite !len_app. unfold header.
  pose proof (len_nonneg old). pose proof (len_nonneg x).
  destruct (Z.eqb_spec (len old) 0).
  - pose proof (encode_nonempty column). lia.
  - change (len EmptyString) with 0. lia.
Qed.

Lemma header_then_nonempty_eq (column column' : list string) (old x : string) :
  header column' (old +:+ header column old +:+ x) = EmptyString.
Proof. unfold header at 1. by rewrite header_then_nonempty. Qed.

Lemma ready_after env r data os path :
  ready env r os path -> ready env r (snd (Record_ env r data os)) path.
Proof.
  intros H. rewrite (Record_no_fault _ _ _ _ _ H).
  destruct H as (Ht & Hd & Hf & Hs). by split_and!.
Qed.

Lemma RecordAll_file env r datas os path :
  ready env r os path ->
  let old := default EmptyString (files os !! path) in
  files (RecordAll env r datas os) !! path
  = match datas with
    | [] => files os !! path
    | _ => Some (old +:+ header (Column r) old
                 +:+ joinLines (map (lineOf (Column r)) datas))
    end.
Proof.
  revert os. induction datas as [|d rest IH]; intros os Hready old; [done|].
  cbn [RecordAll fold_left]. fold (RecordAll env r rest (snd (Record_ env r d os))).
  rewrite (IH _ (ready_after _ _ d _ _ Hready)).
  rewrite (Record_no_fault _ _ _ _ _ Hready). cbn [snd files].
  rewrite lookup_insert_eq. fold old.
  change (default EmptyString (Some ?x)) with x.
  unfold added. fold (lineOf (Column r) d).
  cbn [map joinLines fold_right].
  destruct rest as [|d' rest'].
  - cbn [map fold_right]. by rewrite app_nil_r.
  - f_equal. rewrite header_then_nonempty_eq.
    by rewrite app_nil_l, !app_assoc.
Qed.

(** X4.  Calls in one period share one header: after one call or more, on a
    file system where nothing fails, the file holds its old bytes, the
    header line if it was empty before the first call, and then one
    line for each payload that has a mapping, in the order of the
    calls. *)
Theorem records_share_one_header env r datas os path :
  ready env r os path ->
  datas <> [] ->
  let old := default EmptyString (files os !! path) in
  files (RecordAll env r datas os) !! path
  = Some (old +:+ header (Column r) old
          +:+ joinLines (map (lineOf (Column r)) datas)).
Proof.
  intros Hready Hne old. rewrite (RecordAll_file _ _ _ _ _ Hready).
  by destruct datas.
Qed.

End Calls.

(** ** Reading a whole file back *)

Section ReadFile.

Import Csv.
















End ReadFile.

(** ** What the result tells the caller *)

Section Results.

Import Bufio.

Lemma appendBody_stat_only env filename column data file st :
  match fst (appendBody env filename column data file st) with
  | Some (ErrOpen _ _) => False
  | Some (ErrStat _ _) => snd (appendBody env filename column data file st) = st
  | _ => True
  end.
Proof.
  unfold appendBody.
  destruct (StatSize _ _ _); [|done].
  destruct (if z =? 0 then _ else _) as [[?|] st1]; [done|].
  destruct (Marshal data); [|done]. destruct (Unmarshal _); [|done].
  destruct (Csv.Write _ st1) as [[?|] st2]; [done|].
  destruct (Csv.Error st2) as [[e|] st3]; [|done].
  by destruct (bool_decide (e = EOF)).
Qed.

Lemma Append_file_exists env filename column data os file os1 :
  OpenFile (faults env) filename appendFlags os = (inl file, os1) ->
  is_Some (files (snd (Append env filename column data os)) !! filename).
Proof.
  intros EO. unfold Append. rewrite EO.
  destruct (OpenFile_content _ _ _ _ _ EO) as (-> & _ & _).
  pose proof (OpenFile_exists _ _ _ _ _ EO) as Hex.
  set (file := mkFile filename true 0) in *.
  assert (E0 : Ext filename os1 (NewWriter file, os1)).
  { unfold Ext; cbn. repeat (split; [done|]). exists EmptyString.
    rewrite Hex. cbn. by rewrite app_nil_r, insert_id. }
  pose proof (appendBody_Ext env filename column data file _ _ _ E0) as E1.
  destruct (appendBody _ _ _ _ _ _) as [result st]. cbn in E1.
  pose proof (keeps_Flush _ _ _ E1) as E2.
  unfold Csv.Flush. destruct (Flush st) as [fe [b2 os2]].
  destruct E2 as (_ & _ & _ & _ & x & Hf). cbn in *.
  rewrite Hf, lookup_insert_eq. by eexists.
Qed.

(** What [Append] left behind, read off its result. *)
Lemma Append_tells env filename column data os :
  let os' := snd (Append env filename column data os) in
  match fst (Append env filename column data os) with
  | None => is_Some (files os' !! filename)
  | Some (ErrOpen _ _) => os' = os
  | Some (ErrStat _ _) =>
      is_Some (files os' !! filename)
      /\ bytesAt os' filename = bytesAt os filename
  | Some _ => True
  end.
Proof.
  cbn zeta.
  pose proof (Append_file_exists env filename column data os) as Hex.
  unfold Append in *.
  destruct (OpenFile _ _ _ os) as [[file|e] os1] eqn:EO.
  2: { cbn. unfold OpenFile in EO. destruct (openErr _); [by injection EO|].
       by destruct (files os !! filename). }
  specialize (Hex _ _ eq_refl).
  destruct (OpenFile_content _ _ _ _ _ EO) as (-> & _ & Hc).
  set (file := mkFile filename true 0) in *.
  pose proof (appendBody_stat_only env filename column data file
                (NewWriter file, os1)) as Hb.
  destruct (appendBody _ _ _ _ _ _) as [result st]. cbn [fst snd] in Hb.
  destruct result as [inner|].
  - destruct inner; try done; try (by destruct (Csv.Flush st) as [? [? ?]]).
    subst st. cbn in Hex |- *. split; [done|]. exact Hc.
  - by destruct (Csv.Flush st) as [? [? ?]].
Qed.

(** X6.  What the file system looks like after a call, read off the result.
    [nil]: the target file exists and so does the directory.  The time
    zone and record type errors: nothing has changed.  The directory
    error and the error of the open: no file has changed and none is
    open.  The error of the stat: the target file exists, with the
    bytes it had. *)
Theorem result_tells_state env r data os :
  let os' := snd (Record_ env r data os) in
  match fst (Record_ env r data os) with
  | None =>
      Dir r ∈ dirs os'
      /\ exists path, targets env r path /\ is_Some (files os' !! path)
  | Some ErrLoadLocation | Some (ErrRecordType _) => os' = os
  | Some (ErrMkdirAll _ _) | Some (ErrAppend _ (ErrOpen _ _)) =>
      files os' = files os /\ opened os' = opened os
  | Some (ErrAppend path (ErrStat _ _)) =>
      is_Some (files os' !! path) /\ bytesAt os' path = bytesAt os path
  | Some _ => True
  end.
Proof.
  cbn zeta. unfold Record_, targets.
  destruct (LoadLocation env "Asia/Jakarta") as [loc|]; [|done].
  destruct (periodSuffix _ _) as [suffix|] eqn:Hs; [|done].
  destruct (MkdirAll _ _ os) as [[e|] os1] eqn:EM.
  { pose proof (MkdirAll_files (faults env) (Dir r) os) as (Hf & Ho & _).
    rewrite EM in Hf, Ho. done. }
  pose proof (MkdirAll_files (faults env) (Dir r) os) as (Hf & Ho & _).
  rewrite EM in Hf, Ho. cbn in Hf, Ho.
  assert (Hdir : Dir r ∈ dirs os1).
  { unfold MkdirAll in EM. destruct (String.eqb _ _); [done|].
    destruct (mkdirErr _); [done|]. injection EM as <-. cbn. set_solver. }
  pose proof (Append_tells env (filePath r suffix) (Column r) data os1) as Ht.
  destruct (Append_extends env (filePath r suffix) (Column r) data os1)
    as (Hd' & _).
  destruct (Append _ _ _ _ os1) as [[inner|] os2]; cbn in Ht, Hd' |- *.
  - destruct inner; try done.
    + by subst os2.
    + destruct Ht as [Hex Hb]. split; [done|].
      rewrite Hb. unfold bytesAt. by rewrite Hf.
  - split; [by rewrite Hd'|]. exists (filePath r suffix).
    split; [by exists loc, suffix|done].
Qed.

(** X7.  A recorder with other columns on the same file: the header of the
    first one stays, and the second one adds its own row below it. *)
Theorem header_survives_other_columns env r1 r2 data1 data2 os path :
  ready env r1 os path ->
  targets env r2 path ->
  Dir r2 <> EmptyString ->
  let old := default EmptyString (files os !! path) in
  files (snd (Record_ env r2 data2 (snd (Record_ env r1 data1 os)))) !! path
  = Some (old +:+ header (Column r1) old
          +:+ lineOf (Column r1) data1 +:+ lineOf (Column r2) data2).
Proof.
  intros Hready Ht2 Hd2 old.
  assert (Hready2 : ready env r2 (snd (Record_ env r1 data1 os)) path).
  { rewrite (Record_no_fault _ _ _ _ _ Hready).
    destruct Hready as (_ & _ & Hf & _). by split_and!. }
  rewrite (Record_no_fault _ _ _ _ _ Hready2). cbn [snd files].
  rewrite lookup_insert_eq. f_equal.
  rewrite (Record_no_fault _ _ _ _ _ Hready). cbn [snd files].
  rewrite lookup_insert_eq. fold old.
  change (default EmptyString (Some ?x)) with x.
  unfold added at 1. fold (lineOf (Column r2) data2).
  unfold added. fold (lineOf (Column r1) data1).
  rewrite header_then_nonempty_eq. by rewrite app_nil_l, !app_assoc.
Qed.

End Results.

(** ** Keys outside the column list *)

Section OtherKeys.





(** X9.  An integral number of magnitude below a million in the payload is
    written as its decimal digits, with a minus sign if negative and
    without a decimal point. *)
Theorem small_integer_field (dataMap : gmap string value) (col : string) (n : Z) :
  -1000000 < n < 1000000 ->
  dataMap !! col = Some (VFloat (float64OfInt n)) ->
  field dataMap col = appendInt n 0
  /\ Csv.anyByte point (field dataMap col) = false.
Proof.
  intros Hn Hcol. unfold field. rewrite Hcol. cbv beta iota.
  destruct (integral_below_million n Hn) as [E P].
  by rewrite E.
Qed.

End OtherKeys.

(** ** Periods and their files *)

Section Periods.

Lemma digit_value (k : Z) :
  0 <= k < 10 -> Z.of_nat (nat_of_ascii (digit k)) = 48 + k.
Proof.
  intros Hk. unfold digit. rewrite nat_ascii_embedding by lia. lia.
Qed.

Lemma digit_inj (a b : Z) :
  0 <= a < 10 -> 0 <= b < 10 -> digit a = digit b -> a = b.
Proof.
  intros Ha Hb H.
  pose proof (digit_value a Ha) as Va. pose proof (digit_value b Hb) as Vb.
  rewrite H in Va. lia.
Qed.

Ltac divlia := Z.div_mod_to_equations; lia.

Lemma twoDigits_inj (a b : Z) :
  0 <= a <= 99 -> 0 <= b <= 99 -> twoDigits a = twoDigits b -> a = b.
Proof.
  intros Ha Hb H. unfold twoDigits, str1 in H. injection H as H1 H0.
  apply digit_inj in H1; [|divlia|divlia].
  apply digit_inj in H0; [|divlia|divlia].
  divlia.
Qed.

Lemma fourDigits_inj (a b : Z) :
  0 <= a <= 9999 -> 0 <= b <= 9999 -> fourDigits a = fourDigits b -> a = b.
Proof.
  intros Ha Hb H. unfold fourDigits, str1 in H. injection H as H3 H2 H1 H0.
  apply digit_inj in H3; [|divlia|divlia].
  apply digit_inj in H2; [|divlia|divlia].
  apply digit_inj in H1; [|divlia|divlia].
  apply digit_inj in H0; [|divlia|divlia].
  divlia.
Qed.

Lemma daily_civil (t : Time) :
  civil t ->
  periodSuffix "daily" t
  = Some (fourDigits (year t) +:+ "_" +:+ twoDigits (month t)
          +:+ "_" +:+ twoDigits (day t)).
Proof.
  intros (Hy & Hm & Hd). unfold periodSuffix. cbn [String.eqb Ascii.eqb Bool.eqb].
  rewrite Format_daily, appendInt_four, !appendInt_two by lia. done.
Qed.

Lemma monthly_civil (t : Time) :
  civil t ->
  periodSuffix "monthly" t
  = Some (fourDigits (year t) +:+ "_" +:+ twoDigits (month t)).
Proof.
  intros (Hy & Hm & Hd). unfold periodSuffix. cbn [String.eqb Ascii.eqb Bool.eqb].
  rewrite Format_monthly, appendInt_four, !appendInt_two by lia. done.
Qed.

Lemma yearly_civil (t : Time) :
  civil t -> periodSuffix "yearly" t = Some (fourDigits (year t)).
Proof.
  intros (Hy & Hm & Hd). unfold periodSuffix. cbn [String.eqb Ascii.eqb Bool.eqb].
  rewrite Format_yearly, appendInt_four by lia. done.
Qed.

Lemma four_then (y : Z) (s : string) :
  fourDigits y +:+ s
  = String (digit (y / 1000))
      (String (digit ((y / 100) mod 10))
         (String (digit ((y / 10) mod 10)) (String (digit (y mod 10)) s))).
Proof. reflexivity. Qed.

Lemma two_then (n : Z) (s : string) :
  twoDigits n +:+ s = String (digit (n / 10)) (String (digit (n mod 10)) s).
Proof. reflexivity. Qed.

Lemma four_then_inj (a b : Z) (s s' : string) :
  0 <= a <= 9999 -> 0 <= b <= 9999 ->
  fourDigits a +:+ s = fourDigits b +:+ s' -> a = b /\ s = s'.
Proof.
  intros Ha Hb H. rewrite !four_then in H. injection H as H3 H2 H1 H0 Hs.
  split; [|done]. apply fourDigits_inj; [done|done|].
  unfold fourDigits. by rewrite H3, H2, H1, H0.
Qed.

Lemma two_then_inj (a b : Z) (s s' : string) :
  0 <= a <= 99 -> 0 <= b <= 99 ->
  twoDigits a +:+ s = twoDigits b +:+ s' -> a = b /\ s = s'.
Proof.
  intros Ha Hb H. rewrite !two_then in H. injection H as H1 H0 Hs.
  split; [|done]. apply twoDigits_inj; [done|done|].
  unfold twoDigits. by rewrite H1, H0.
Qed.

Lemma under_inj (s s' : string) : "_" +:+ s = "_" +:+ s' -> s = s'.
Proof. intros H. by injection H. Qed.

(** X10.  The suffix names the period and nothing else: two instants get the
    same daily suffix exactly when they fall on the same day, the same
    monthly suffix exactly when they fall in the same month, the same
    yearly suffix exactly when they fall in the same year; the time of
    day plays no part. *)
Theorem suffix_names_period (t1 t2 : Time) :
  civil t1 -> civil t2 ->
  (periodSuffix "daily" t1 = periodSuffix "daily" t2
   <-> year t1 = year t2 /\ month t1 = month t2 /\ day t1 = day t2)
  /\ (periodSuffix "monthly" t1 = periodSuffix "monthly" t2
      <-> year t1 = year t2 /\ month t1 = month t2)
  /\ (periodSuffix "yearly" t1 = periodSuffix "yearly" t2
      <-> year t1 = year t2).
Proof.
  intros C1 C2.
  rewrite !daily_civil, !monthly_civil, !yearly_civil by done.
  destruct C1 as (Hy1 & Hm1 & Hd1), C2 as (Hy2 & Hm2 & Hd2).
  split_and!; split.
  - intros H%(inj Some). apply four_then_inj in H as [Hy H]; [|lia|lia].
    apply under_inj in H. apply two_then_inj in H as [Hm H]; [|lia|lia].
    apply under_inj in H. apply twoDigits_inj in H; [done|lia|lia].
  - by intros (-> & -> & ->).
  - intros H%(inj Some). apply four_then_inj in H as [Hy H]; [|lia|lia].
    apply under_inj in H. apply twoDigits_inj in H; [done|lia|lia].
  - by intros (-> & ->).
  - intros H%(inj Some). apply fourDigits_inj in H; [done|lia|lia].
  - by intros ->.
Qed.

End Periods.

(** ** The path of the target file *)

Section TargetPath.

Import Filepath.

Definition isSeparator (c : ascii) : bool := Ascii.eqb c Separator.

(** No path separator in [s]. *)
Definition noSlash (s : string) : Prop := Csv.anyByte isSeparator s = false.

(** A path element that [Clean] keeps: not empty, not [.], not [..]. *)
Definition kept (e : string) : Prop :=
  String.eqb e EmptyString = false
  /\ String.eqb e "." = false
  /\ String.eqb e ".." = false.

Lemma splitFrom_noSlash (b cur : string) :
  noSlash b -> splitFrom cur b = [cur +:+ b].
Proof.
  unfold noSlash. revert cur. induction b as [|c b IH]; intros cur H.
  - by rewrite app_nil_r.
  - cbn [Csv.anyByte] in H. apply orb_false_elim in H as [Hc Hb].
    cbn [splitFrom]. unfold isSeparator in Hc. rewrite Hc, IH by done.
    by rewrite app_assoc.
Qed.

Lemma splitFrom_last (a b cur : string) :
  noSlash b ->
  splitFrom cur (a +:+ String Separator b) = splitFrom cur a ++ [b].
Proof.
  intros Hb. revert cur. induction a as [|c a IH]; intros cur.
  - rewrite app_nil_l. cbn [splitFrom].
    change (Ascii.eqb Separator Separator) with true. cbn match.
    by rewrite splitFrom_noSlash.
  - rewrite app_cons. cbn [splitFrom].
    destruct (Ascii.eqb c Separator); by rewrite IH.
Qed.

Lemma cleanElems_last (rooted : bool) (l out : list string) (e : string) :
  kept e -> cleanElems rooted out (l ++ [e]) = e :: cleanElems rooted out l.
Proof.
  intros (H0 & H1 & H2). revert out.
  induction l as [|x l IH]; intros out.
  - cbn. by rewrite H0, H1, H2.
  - cbn [app cleanElems].
    destruct (String.eqb x EmptyString); [apply IH|].
    destruct (String.eqb x "."); [apply IH|].
    destruct (String.eqb x ".."); [|apply IH].
    destruct out as [|top out']; [destruct rooted; apply IH|].
    destruct (String.eqb top ".."); apply IH.
Qed.

(** The elements of [l], each followed by the separator. *)
Definition prefixOf (sep : string) (l : list string) : string :=
  fold_right (fun e acc => e +:+ sep +:+ acc) EmptyString l.

Lemma join_last (sep : string) (l : list string) (x : string) :
  join sep (l ++ [x]) = prefixOf sep l +:+ x.
Proof.
  induction l as [|e l IH]; [reflexivity|].
  cbn [app prefixOf fold_right]. fold (prefixOf sep l).
  rewrite !app_assoc, <- IH. by destruct l.
Qed.

(** What [Join] puts in front of a file name, as a function of the
    directory alone. *)
Definition dirPrefix (dir : string) : string :=
  match dir with
  | EmptyString => EmptyString
  | String c _ =>
      let rooted := Ascii.eqb c Separator in
      (if rooted then str1 Separator else EmptyString)
      +:+ prefixOf (str1 Separator) (rev (cleanElems rooted [] (split dir)))
  end.

Lemma app_not_empty (a b : string) :
  String.eqb b EmptyString = false -> String.eqb (a +:+ b) EmptyString = false.
Proof. intros H. destruct a; [done|]. by rewrite app_cons. Qed.

Lemma Clean_in_dir (dir name : string) :
  dir <> EmptyString -> noSlash name -> kept name ->
  Clean (dir +:+ String Separator name) = dirPrefix dir +:+ name.
Proof.
  intros Hdir Hns Hk. destruct dir as [|c d]; [done|].
  unfold dirPrefix. rewrite app_cons. unfold Clean.
  rewrite <- app_cons. unfold split.
  rewrite splitFrom_last, cleanElems_last by done.
  cbn [rev]. rewrite join_last.
  destruct (Ascii.eqb c Separator); [done|].
  rewrite app_nil_l. rewrite app_not_empty; [done|]. apply Hk.
Qed.

Lemma Clean_alone (name : string) :
  noSlash name -> kept name -> Clean name = name.
Proof.
  intros Hns Hk. pose proof Hk as (H0 & H1 & H2).
  destruct name as [|c n]; [done|].
  unfold Clean, split. rewrite (splitFrom_noSlash _ _ Hns).
  rewrite app_nil_l.
  unfold noSlash in Hns. cbn [Csv.anyByte] in Hns.
  apply orb_false_elim in Hns as [Hc _]. unfold isSeparator in Hc. rewrite Hc.
  cbn [cleanElems]. rewrite H0, H1, H2. cbn [cleanElems rev app join].
  by rewrite H0.
Qed.

Lemma kept_long (e : string) : (3 <= String.length e)%nat -> kept e.
Proof.
  intros H. split_and!; apply String.eqb_neq; intros ->; cbn in H; lia.
Qed.

Lemma Join_file (dir name : string) :
  noSlash name -> kept name ->
  Join [dir; name] = dirPrefix dir +:+ name.
Proof.
  intros Hns Hk. cbn [Join].
  destruct (String.eqb_spec dir EmptyString) as [->|Hdir].
  - pose proof Hk as (H0 & _). rewrite H0. cbn [join].
    by rewrite Clean_alone.
  - cbn [join]. rewrite <- (Clean_in_dir dir name) by done. reflexivity.
Qed.

Lemma filePath_flat (r : RecordToCSVService) (suffix : string) :
  noSlash (Filename r) -> noSlash suffix ->
  filePath r suffix
  = dirPrefix (Dir r) +:+ Filename r +:+ "_" +:+ suffix +:+ ".csv".
Proof.
  intros Hf Hs. unfold filePath. apply Join_file.
  - unfold noSlash in *. by rewrite !anyByte_app, Hf, Hs.
  - apply kept_long. rewrite !length_app. cbn. lia.
Qed.

(** X11.  The target file is named by the base name, an underscore, the
    suffix and ".csv", and stands behind a prefix that is a function of
    the directory alone: cleaning the path does not touch the name, as
    long as the base name and the suffix hold no separator. *)
Theorem target_file_name (r : RecordToCSVService) (suffix : string) :
  noSlash (Filename r) -> noSlash suffix ->
  filePath r suffix
  = dirPrefix (Dir r) +:+ Filename r +:+ "_" +:+ suffix +:+ ".csv".
Proof. apply filePath_flat. Qed.

Lemma app_inv_head (a b c : string) : a +:+ b = a +:+ c -> b = c.
Proof.
  induction a as [|x a IH]; [done|]. rewrite !app_cons. intros H.
  injection H as H. by apply IH.
Qed.

Lemma app_inv_tail (b c t : string) : b +:+ t = c +:+ t -> b = c.
Proof.
  revert c. induction b as [|x b IH]; intros c H.
  - destruct c as [|y c]; [done|].
    apply (f_equal String.length) in H. rewrite app_nil_l, length_app in H.
    cbn in H. lia.
  - destruct c as [|y c].
    + apply (f_equal String.length) in H. rewrite app_nil_l, length_app in H.
      cbn in H. lia.
    + rewrite !app_cons in H. injection H as -> H. f_equal. by apply IH.
Qed.

Lemma digit_noSlash (k : Z) : 0 <= k < 10 -> isSeparator (digit k) = false.
Proof.
  intros Hk.
  assert (Hcases : k = 0 \/ k = 1 \/ k = 2 \/ k = 3 \/ k = 4 \/ k = 5
                   \/ k = 6 \/ k = 7 \/ k = 8 \/ k = 9) by lia.
  repeat (destruct Hcases as [->|Hcases]; [reflexivity|]). by subst k.
Qed.

Lemma twoDigits_noSlash (n : Z) : 0 <= n <= 99 -> noSlash (twoDigits n).
Proof.
  intros Hn. unfold noSlash, twoDigits, str1. cbn [Csv.anyByte].
  by rewrite !digit_noSlash by (Z.div_mod_to_equations; lia).
Qed.

Lemma fourDigits_noSlash (n : Z) : 0 <= n <= 9999 -> noSlash (fourDigits n).
Proof.
  intros Hn. unfold noSlash, fourDigits, str1. cbn [Csv.anyByte].
  by rewrite !digit_noSlash by (Z.div_mod_to_equations; lia).
Qed.

Lemma periodSuffix_noSlash (recordType : string) (t : Time) (suffix : string) :
  civil t -> periodSuffix recordType t = Some suffix -> noSlash suffix.
Proof.
  intros Hc Hs. pose proof Hc as (Hy & Hm & Hd).
  pose proof (fourDigits_noSlash _ Hy) as N4.
  pose proof (twoDigits_noSlash (month t) ltac:(lia)) as Nm.
  pose proof (twoDigits_noSlash (day t) ltac:(lia)) as Nd.
  unfold noSlash in *.
  assert (Hcases : Some suffix = periodSuffix "daily" t
                   \/ Some suffix = periodSuffix "monthly" t
                   \/ Some suffix = periodSuffix "yearly" t).
  { unfold periodSuffix in Hs |- *. cbn [String.eqb Ascii.eqb Bool.eqb].
    destruct (String.eqb recordType "daily"); [by left|].
    destruct (String.eqb recordType "monthly"); [by right; left|].
    destruct (String.eqb recordType "yearly"); [by right; right|done]. }
  rewrite daily_civil, monthly_civil, yearly_civil in Hcases by done.
  destruct Hcases as [[= ->]|[[= ->]|[= ->]]];
    by rewrite ?anyByte_app, ?N4, ?Nm, ?Nd.
Qed.

(** X12.  Each period gets a file of its own: for a base name without a
    separator, two instants are sent to the same file exactly when
    their suffixes are the same. *)
Theorem same_file_iff_same_suffix (r : RecordToCSVService) (t1 t2 : Time)
    (s1 s2 : string) :
  civil t1 -> civil t2 ->
  noSlash (Filename r) ->
  periodSuffix (RecordType r) t1 = Some s1 ->
  periodSuffix (RecordType r) t2 = Some s2 ->
  filePath r s1 = filePath r s2 <-> s1 = s2.
Proof.
  intros C1 C2 Hf H1 H2. split; [|by intros ->].
  rewrite !filePath_flat
    by eauto using periodSuffix_noSlash.
  intros H. do 3 apply app_inv_head in H. by apply app_inv_tail in H.
Qed.

End TargetPath.

(** ** The further properties on the booking recorder *)

Section FurtherRuns.

Lemma booking_reaches (r : RecordToCSVService) :
  Dir r = "files/record" -> Filename r = "booking_record" ->
  RecordType r = "daily" ->
  reaches jakartaEnv r bookingPath.
Proof.
  intros Hd Hf Ht.
  destruct (booking_ready r Hd Hf Ht) as (H1 & H2 & H3 & _). by split_and!.
Qed.

(** A device with room for five more bytes. *)
Definition fiveLeft : OS := mkOS ∅ ∅ [] (Some 5%nat).

Lemma small_record_device_error_unreported_witness :
  reaches jakartaEnv booking bookingPath
  /\ len (added (Column booking) bookingPayload (bytesAt fiveLeft bookingPath))
     <= Bufio.defaultBufSize
  /\ fst (Record_ jakartaEnv booking bookingPayload fiveLeft) = None
  /\ bytesAt (snd (Record_ jakartaEnv booking bookingPayload fiveLeft)) bookingPath
     = "id,re".
Proof.
  assert (H : reaches jakartaEnv booking bookingPath)
    by (by apply booking_reaches).
  assert (Hl : len (added (Column booking) bookingPayload
                      (bytesAt fiveLeft bookingPath)) <= Bufio.defaultBufSize)
    by (by vm_compute).
  split_and!; [exact H | exact Hl | |];
    destruct (small_record_device_error_unreported jakartaEnv booking
                bookingPayload fiveLeft bookingPath H Hl) as [Hret Hfile].
  - rewrite Hret; reflexivity.
  - rewrite Hfile; reflexivity.
Defined.

(** A recorder whose one column name is longer than the buffer. *)
Definition wide : RecordToCSVService :=
  NewRecordToCSV "files/record" "booking_record"
    [repeatByte 5000 "a"%char] "daily".

Lemma full_device_error_iff_overflow_witness :
  reaches jakartaEnv wide bookingPath
  /\ space fullDisk = Some 0%nat
  /\ fst (Record_ jakartaEnv wide bookingPayload fullDisk)
     = Some (ErrAppend bookingPath (ErrHeader bookingPath ENOSPC))
  /\ bytesAt (snd (Record_ jakartaEnv wide bookingPayload fullDisk)) bookingPath
     = EmptyString.
Proof.
  assert (H : reaches jakartaEnv wide bookingPath)
    by (by apply booking_reaches).
  assert (Hs : space fullDisk = Some 0%nat) by reflexivity.
  split_and!; [exact H | exact Hs | |];
    destruct (full_device_error_iff_overflow jakartaEnv wide bookingPayload
                fullDisk bookingPath H Hs) as [Hret Hfile].
  - rewrite Hret. by vm_compute.
  - rewrite Hfile; reflexivity.
Defined.

Lemma records_share_one_header_witness :
  ready jakartaEnv booking emptyOS bookingPath
  /\ [bookingPayload; Nil] <> []
  /\ files (RecordAll jakartaEnv booking [bookingPayload; Nil] emptyOS) !! bookingPath
     = Some ("id,request,response" +:+ str1 lf
             +:+ "123,GET /x,200 OK" +:+ str1 lf +:+ ",," +:+ str1 lf).
Proof.
  assert (H : ready jakartaEnv booking emptyOS bookingPath)
    by (by apply booking_ready).
  assert (Hne : [bookingPayload; Nil] <> []) by discriminate.
  split_and!; [exact H | exact Hne |].
  rewrite (records_share_one_header jakartaEnv booking [bookingPayload; Nil]
             emptyOS bookingPath H Hne).
  reflexivity.
Defined.


(** A second recorder on the same file, with other columns. *)
Definition statusOnly : RecordToCSVService :=
  NewRecordToCSV "files/record" "booking_record" ["response"; "id"] "daily".

Lemma header_survives_other_columns_witness :
  ready jakartaEnv booking emptyOS bookingPath
  /\ targets jakartaEnv statusOnly bookingPath
  /\ Dir statusOnly <> EmptyString
  /\ files (snd (Record_ jakartaEnv statusOnly bookingPayload
                   (snd (Record_ jakartaEnv booking bookingPayload emptyOS))))
       !! bookingPath
     = Some ("id,request,response" +:+ str1 lf
             +:+ "123,GET /x,200 OK" +:+ str1 lf
             +:+ "200 OK,123" +:+ str1 lf).
Proof.
  assert (H : ready jakartaEnv booking emptyOS bookingPath)
    by (by apply booking_ready).
  assert (Ht : targets jakartaEnv statusOnly bookingPath)
    by (by apply (booking_ready statusOnly)).
  assert (Hd : Dir statusOnly <> EmptyString) by discriminate.
  split_and!; [exact H | exact Ht | exact Hd |].
  rewrite (header_survives_other_columns jakartaEnv booking statusOnly
             bookingPayload bookingPayload emptyOS bookingPath H Ht Hd).
  reflexivity.
Defined.


Lemma small_integer_field_witness :
  -1000000 < -4096 < 1000000
  /\ ({[ "id" := VFloat (float64OfInt (-4096)) ]} : gmap string value) !! "id"
     = Some (VFloat (float64OfInt (-4096)))
  /\ field {[ "id" := VFloat (float64OfInt (-4096)) ]} "id" = "-4096".
Proof.
  assert (Hn : -1000000 < -4096 < 1000000) by lia.
  assert (Hl : ({[ "id" := VFloat (float64OfInt (-4096)) ]} : gmap string value)
               !! "id" = Some (VFloat (float64OfInt (-4096))))
    by reflexivity.
  split; [exact Hn|]. split; [exact Hl|].
  destruct (small_integer_field _ "id" (-4096) Hn Hl) as [Hfield _].
  rewrite Hfield; reflexivity.
Defined.

(** The last second of 26 August 2025, and the first of the day after. *)
Definition lateThatDay : Time := mkTime 2025 8 26 23 59 59 238.
Definition nextDay : Time := mkTime 2025 8 27 0 0 0 239.

Lemma suffix_names_period_witness :
  civil instant_2025_08_26 /\ civil lateThatDay
  /\ periodSuffix "daily" instant_2025_08_26 = periodSuffix "daily" lateThatDay.
Proof.
  assert (C1 : civil instant_2025_08_26) by (unfold civil; cbn; lia).
  assert (C2 : civil lateThatDay) by (unfold civil; cbn; lia).
  split_and!; [exact C1 | exact C2 |].
  destruct (suffix_names_period instant_2025_08_26 lateThatDay C1 C2)
    as [[_ Hday] _].
  apply Hday. by split_and!.
Defined.

Lemma target_file_name_witness :
  noSlash (Filename booking) /\ noSlash "2025_08_26"
  /\ filePath booking "2025_08_26"
     = "files/record/" +:+ "booking_record" +:+ "_" +:+ "2025_08_26" +:+ ".csv".
Proof.
  assert (Hf : noSlash (Filename booking)) by reflexivity.
  assert (Hs : noSlash "2025_08_26") by reflexivity.
  split_and!; [exact Hf | exact Hs |].
  rewrite (target_file_name booking "2025_08_26" Hf Hs). reflexivity.
Defined.

Lemma same_file_iff_same_suffix_witness :
  civil instant_2025_08_26 /\ civil nextDay
  /\ noSlash (Filename booking)
  /\ periodSuffix (RecordType booking) instant_2025_08_26 = Some "2025_08_26"
  /\ periodSuffix (RecordType booking) nextDay = Some "2025_08_27"
  /\ filePath booking "2025_08_26" <> filePath booking "2025_08_27".
Proof.
  assert (C1 : civil instant_2025_08_26) by (unfold civil; cbn; lia).
  assert (C2 : civil nextDay) by (unfold civil; cbn; lia).
  assert (Hf : noSlash (Filename booking)) by reflexivity.
  assert (H1 : periodSuffix (RecordType booking) instant_2025_08_26
               = Some "2025_08_26") by reflexivity.
  assert (H2 : periodSuffix (RecordType booking) nextDay = Some "2025_08_27")
    by reflexivity.
  split_and!; [exact C1 | exact C2 | exact Hf | exact H1 | exact H2 |].
  intros E.
  apply (same_file_iff_same_suffix booking instant_2025_08_26 nextDay
           "2025_08_26" "2025_08_27" C1 C2 Hf H1 H2) in E.
  discriminate E.
Defined.

End FurtherRuns.
